(** * Job requirements extractor: a shallow embedding of
      [src/job_requirements_extractor/extractor.py] and the properties
      of its requirement-extraction and analysis pipeline, followed by
      those of its callers in [batch_processor.py] and [cli.py].

    Python [str] values are lists of Unicode code points.  The character
    tables of the Python runtime are fixed on the ASCII range and left as
    parameters above it (record [Runtime]), together with the iteration
    order of a [set] of strings.

    Python floats are kept as exact rationals: the quotient of two [int]s
    is the exact quotient, which binary64 rounds monotonically, 0 and 1
    being exact.  The comparison of such a quotient with the literal [0.3]
    is the exact one as long as the divisor stays below 10^15.

    Functions that can meet an exception are written in the monad [exc];
    the other functions of the pipeline have no failing operation (every
    index and every division is guarded in the source) and are plain
    functions.  For the summary the guard of the division is itself under
    proof: [_generate_summary_checked] has the division that raises. *)

From Stdlib Require Import String Ascii.
From Stdlib Require Import List NArith ZArith QArith Qminmax Bool Lia Permutation.
Import ListNotations.

Set Implicit Arguments.
Set Warnings "-register-all".

(** ** Text *)

Definition char := N.
Definition str := list char.

Definition str_eq_dec : forall a b : str, {a = b} + {a <> b} := list_eq_dec N.eq_dec.

(** An ASCII literal as a Python string. *)
Definition u (s : string) : str := map N_of_ascii (list_ascii_of_string s).
Arguments u s%_string.

Definition nl : char := 10%N.
Definition bullet : char := 8226%N.      (* U+2022 *)

(** [mem x l] is Python's [x in l] / [x not in l] on a list of strings. *)
Definition mem (x : str) (l : list str) : bool :=
  if in_dec str_eq_dec x l then true else false.

(** What the interpreter contributes besides the ASCII tables: the Unicode
    database above U+007F, and the order in which a [set] of strings is
    iterated (a permutation of its distinct elements). *)
Record Runtime := {
  uni_isspace : char -> bool;
  uni_isdecimal : char -> bool;
  uni_isalnum : char -> bool;
  uni_isalpha : char -> bool;
  uni_lower : str -> str;
  uni_upper : char -> str;
  set_iteration : list str -> list str;
  set_iteration_perm :
    forall l, Permutation (set_iteration l) (nodup str_eq_dec l)
}.

Local Open Scope N_scope.

Definition is_ascii (c : char) : bool := c <? 128.

Definition in_range (lo hi c : N) : bool := (lo <=? c) && (c <=? hi).

Definition ascii_isspace (c : char) : bool :=
  in_range 9 13 c || in_range 28 32 c.
Definition ascii_isdigit (c : char) : bool := in_range 48 57 c.
Definition ascii_isupper (c : char) : bool := in_range 65 90 c.
Definition ascii_islower (c : char) : bool := in_range 97 122 c.
Definition ascii_isalpha (c : char) : bool := ascii_isupper c || ascii_islower c.
Definition ascii_lower (c : char) : char := if ascii_isupper c then c + 32 else c.
Definition ascii_upper (c : char) : char := if ascii_islower c then c - 32 else c.

Section Strings.
Variable U : Runtime.

(** [str.isspace], also the class [\s] of [re] on [str] patterns. *)
Definition isspace (c : char) : bool :=
  if is_ascii c then ascii_isspace c else uni_isspace U c.

(** The class [\d]. *)
Definition isdigit (c : char) : bool :=
  if is_ascii c then ascii_isdigit c else uni_isdecimal U c.

(** The class [\w]. *)
Definition isword (c : char) : bool :=
  if is_ascii c then ascii_isalpha c || ascii_isdigit c || (c =? 95)
  else uni_isalnum U c.

Definition isalpha (c : char) : bool :=
  if is_ascii c then ascii_isalpha c else uni_isalpha U c.

(** [s.lower()] *)
Definition lower (s : str) : str :=
  if forallb is_ascii s then map ascii_lower s else uni_lower U s.

(** [c.upper()] for a one-character string. *)
Definition upper (c : char) : str :=
  if is_ascii c then [ascii_upper c] else uni_upper U c.

Fixpoint lstrip (s : str) : str :=
  match s with
  | c :: s' => if isspace c then lstrip s' else s
  | [] => []
  end.

(** [s.strip()] *)
Definition strip (s : str) : str := rev (lstrip (rev (lstrip s))).

Fixpoint split_ws_go (cur : str) (s : str) : list str :=
  match s with
  | [] => match cur with [] => [] | _ => [rev cur] end
  | c :: s' =>
      if isspace c then
        match cur with
        | [] => split_ws_go [] s'
        | _ => rev cur :: split_ws_go [] s'
        end
      else split_ws_go (c :: cur) s'
  end.

(** [s.split()] *)
Definition split_ws (s : str) : list str := split_ws_go [] s.

End Strings.

Fixpoint split_char_go (sep : char) (cur : str) (s : str) : list str :=
  match s with
  | [] => [rev cur]
  | c :: s' =>
      if c =? sep then rev cur :: split_char_go sep [] s'
      else split_char_go sep (c :: cur) s'
  end.

(** [s.split(sep)] for a one-character separator. *)
Definition split_char (sep : char) (s : str) : list str := split_char_go sep [] s.

Fixpoint starts_with (p s : str) : bool :=
  match p, s with
  | [], _ => true
  | a :: p', b :: s' => (a =? b) && starts_with p' s'
  | _ :: _, [] => false
  end.

(** [needle in hay] on strings. *)
Fixpoint contains (needle hay : str) : bool :=
  starts_with needle hay ||
  match hay with
  | [] => false
  | _ :: hay' => contains needle hay'
  end.

(** [any(k in s for k in keywords)] *)
Definition any_in (keywords : list str) (s : str) : bool :=
  existsb (fun k => contains k s) keywords.

(** ** The fragment of [re] the program uses

    Every repetition in the program's patterns is a greedy repetition of a
    one-character class; there are no groups that capture. *)

Inductive regex :=
| Bol                                  (* ^ *)
| Lit (c : char)
| Cls (p : char -> bool)
| Rep (n : nat) (p : char -> bool)     (* p{n,}, greedy *)
| Seq (r1 r2 : regex)
| Alt (r1 r2 : regex).

Section Matcher.
Variable A : Type.

(** Greedy repetition with backtracking: the longest run first. *)
Fixpoint rep (p : char -> bool) (n : nat) (start : bool) (s : str)
         (k : bool -> str -> option A) : option A :=
  let stop := match n with O => k start s | S _ => None end in
  match s with
  | c :: s' =>
      if p c then
        match rep p (Nat.pred n) false s' k with
        | Some r => Some r
        | None => stop
        end
      else stop
  | [] => stop
  end.

(** [start] tells whether the position is the beginning of the text. *)
Fixpoint rmatch (r : regex) (start : bool) (s : str)
         (k : bool -> str -> option A) : option A :=
  match r with
  | Bol => if start then k start s else None
  | Lit c =>
      match s with
      | c' :: s' => if c =? c' then k false s' else None
      | [] => None
      end
  | Cls p =>
      match s with
      | c' :: s' => if p c' then k false s' else None
      | [] => None
      end
  | Rep n p => rep p n start s k
  | Seq r1 r2 => rmatch r1 start s (fun st s' => rmatch r2 st s' k)
  | Alt r1 r2 =>
      match rmatch r1 start s k with
      | Some x => Some x
      | None => rmatch r2 start s k
      end
  end.
End Matcher.

(** The text left after the match of [r] at this position, if any. *)
Definition match_at (r : regex) (start : bool) (s : str) : option str :=
  rmatch r start s (fun _ rest => Some rest).

(** [re.match(r, s)]: a match object or [None]. *)
Definition re_match (r : regex) (s : str) : option str := match_at r true s.

(** [re.sub(r, repl, s)].  [skip] counts the characters of the current match
    still to be dropped.  The program's patterns all consume at least one
    character; a match of length 0 is treated as no match. *)
Fixpoint sub_go (r : regex) (repl : str) (start : bool) (skip : nat)
         (s : str) : str :=
  match s with
  | [] => []
  | c :: s' =>
      match skip with
      | S n => sub_go r repl false n s'
      | O =>
          match match_at r start s with
          | Some rest =>
              match (length s - length rest)%nat with
              | O => c :: sub_go r repl false 0 s'
              | S m => repl ++ sub_go r repl false m s'
              end
          | None => c :: sub_go r repl false 0 s'
          end
      end
  end.

Definition re_sub (r : regex) (repl s : str) : str := sub_go r repl true 0 s.

(** [re.split(r, s)], same conventions. *)
Fixpoint split_go (r : regex) (start : bool) (skip : nat) (cur : str)
         (s : str) : list str :=
  match s with
  | [] => [rev cur]
  | c :: s' =>
      match skip with
      | S n => split_go r false n cur s'
      | O =>
          match match_at r start s with
          | Some rest =>
              match (length s - length rest)%nat with
              | O => split_go r false 0 (c :: cur) s'
              | S m => rev cur :: split_go r false m [] s'
              end
          | None => split_go r false 0 (c :: cur) s'
          end
      end
  end.

Definition re_split (r : regex) (s : str) : list str := split_go r true 0 [] s.

Definition one_of (l : list char) (c : char) : bool := existsb (N.eqb c) l.

(** ** Python dictionaries with string keys, in insertion order *)

Definition dict (V : Type) := list (string * V).

Fixpoint dict_get {V} (d : dict V) (key : string) : option V :=
  match d with
  | [] => None
  | (k, v) :: d' => if String.eqb k key then Some v else dict_get d' key
  end.

(** [d[key] = f(d[key])] for a key that is present. *)
Fixpoint dict_update {V} (d : dict V) (key : string) (f : V -> V) : dict V :=
  match d with
  | [] => []
  | (k, v) :: d' =>
      if String.eqb k key then (k, f v) :: d'
      else (k, v) :: dict_update d' key f
  end.

Definition dict_keys {V} (d : dict V) : list string := map fst d.

(** ** The extractor *)

(** [self.categories] of [JobRequirementsExtractor.__init__]. *)
Definition categories : dict (list str) :=
  [ ("experience"%string,
      [u "years"; u "experience"; u "senior"; u "junior"; u "entry"]);
    ("education"%string,
      [u "degree"; u "bachelor"; u "master"; u "phd"; u "certification"]);
    ("technical_skills"%string,
      [u "python"; u "java"; u "javascript"; u "sql"; u "aws"; u "docker"]);
    ("soft_skills"%string,
      [u "communication"; u "leadership"; u "teamwork"; u "problem-solving"]);
    ("tools"%string,
      [u "git"; u "jira"; u "confluence"; u "slack"; u "teams"]);
    ("methodologies"%string,
      [u "agile"; u "scrum"; u "waterfall"; u "kanban"]) ].

(** [requirement_keywords] of [_extract_text_patterns] and
    [_generate_summary] (the two lists are the same). *)
Definition requirement_keywords : list str :=
  [ u "required"; u "must"; u "should"; u "preferred"; u "desired";
    u "essential"; u "necessary"; u "mandatory"; u "experience"; u "skills";
    u "knowledge"; u "proficient"; u "expert"; u "skilled"; u "qualified";
    u "background"; u "understanding"; u "familiarity"; u "certification";
    u "degree"; u "years"; u "senior"; u "junior"; u "entry"; u "level" ].

Definition skip_indicators : list str :=
  [ u "we offer"; u "we provide"; u "benefits include";
    u "responsibilities"; u "duties"; u "about us"; u "company"; u "team";
    u "culture" ].

(** [requirement_indicators] of [_extract_individual_requirements]. *)
Definition requirement_indicators : list str :=
  [ u "required"; u "must"; u "should"; u "preferred"; u "desired";
    u "essential"; u "necessary"; u "mandatory"; u "experience"; u "skills";
    u "knowledge"; u "proficient"; u "expert"; u "skilled"; u "qualified";
    u "background"; u "understanding"; u "familiarity"; u "certification";
    u "degree"; u "years"; u "senior"; u "junior"; u "entry"; u "level";
    u "python"; u "java"; u "javascript"; u "aws"; u "docker";
    u "kubernetes"; u "sql"; u "agile"; u "git"; u "ci/cd"; u "api";
    u "machine learning"; u "tensorflow"; u "pytorch"; u "microservices";
    u "monitoring"; u "security"; u "net"; u "c#"; u "asp.net"; u "html";
    u "css"; u "angular"; u "ionic";
    u "lead"; u "mentor"; u "manage"; u "team"; u "leadership";
    u "management"; u "foster"; u "culture"; u "conduct"; u "reviews";
    u "planning"; u "delivery"; u "oversee"; u "drive"; u "ensure";
    u "maintain"; u "champion"; u "collaborate"; u "liaise"; u "translate";
    u "requirements"; u "solutions"; u "stakeholders"; u "timelines";
    u "sprint"; u "resource"; u "allocation"; u "progress"; u "reporting";
    u "quality"; u "operations"; u "reliability"; u "performance";
    u "security"; u "production"; u "improvement"; u "innovation";
    u "processes" ].

Definition technical_terms : list str :=
  [ u "api"; u "database"; u "algorithm"; u "framework"; u "architecture";
    u "deployment"; u "infrastructure" ].

Section Extractor.
Variable U : Runtime.

(** The class [[-•\*\s\d\.\)]]. *)
Definition marker_class (c : char) : bool :=
  one_of [45; bullet; 42; 46; 41] c || isspace U c || isdigit U c.

(** [[.!?]]. *)
Definition terminator (c : char) : bool := one_of [46; 33; 63] c.

(** [r'[ \t]+'] *)
Definition blanks : regex := Rep 1 (one_of [32; 9]).

(** [r'[^\w\s\-\.\,\;\:\!\?\(\)•\-\*]'] *)
Definition special_character : regex :=
  Cls (fun c => negb (isword U c || isspace U c
                      || one_of [45; 46; 44; 59; 58; 33; 63; 40; 41;
                                 bullet; 45; 42] c)).

(** [r'[.!?]+|\n-|\n•|\n\*|\n\d+\.|\n\d+\)'] *)
Definition sentence_split : regex :=
  Alt (Rep 1 terminator)
 (Alt (Seq (Lit nl) (Lit 45))
 (Alt (Seq (Lit nl) (Lit bullet))
 (Alt (Seq (Lit nl) (Lit 42))
 (Alt (Seq (Lit nl) (Seq (Rep 1 (isdigit U)) (Lit 46)))
      (Seq (Lit nl) (Seq (Rep 1 (isdigit U)) (Lit 41))))))).

(** [r'[.!?]+|\n-|\n•|\n\*'] *)
Definition summary_split : regex :=
  Alt (Rep 1 terminator)
 (Alt (Seq (Lit nl) (Lit 45))
 (Alt (Seq (Lit nl) (Lit bullet))
      (Seq (Lit nl) (Lit 42)))).

(** [r'^[-•\*\s\d\.\)]+'] *)
Definition leading_markers : regex := Seq Bol (Rep 1 marker_class).

(** [r'^[\s]*[-•\*\s\d\.\)]+[\s]*'] *)
Definition bullet_point : regex :=
  Seq Bol (Seq (Rep 0 (isspace U))
          (Seq (Rep 1 marker_class) (Rep 0 (isspace U)))).

(** [r'^[\s]{4,}'] *)
Definition indented : regex := Seq Bol (Rep 4 (isspace U)).

(** [r'[.!?]+'] *)
Definition sentence_end : regex := Rep 1 terminator.

(** [cleaned[0].upper() + cleaned[1:] if cleaned[0].isalpha() else cleaned] *)
Definition capitalize (cleaned : str) : str :=
  match cleaned with
  | c :: rest => if isalpha U c then upper U c ++ rest else cleaned
  | [] => []
  end.

Definition _clean_text (text : str) : str :=
  let text := re_sub blanks (u " ") text in
  let text := re_sub special_character [] text in
  strip U text.

Definition _extract_text_patterns (text : str) : list str :=
  let sentences := re_split sentence_split text in
  let requirements :=
    flat_map (fun sentence =>
      let sentence := strip U sentence in
      if (length sentence <? 10)%nat then []
      else
        let sentence_lower := lower U sentence in
        if any_in requirement_keywords sentence_lower then
          if negb (any_in skip_indicators sentence_lower)
          then [sentence] else []
        else []) sentences in
  let cleaned_requirements :=
    flat_map (fun req =>
      let cleaned := strip U req in
      let cleaned := re_sub leading_markers [] cleaned in
      match cleaned with
      | [] => []
      | _ => [capitalize cleaned]
      end) requirements in
  set_iteration U cleaned_requirements.

Definition _extract_individual_requirements (text : str) : list str :=
  let lines := split_char nl text in
  flat_map (fun line =>
    match strip U line with
    | [] => []
    | _ =>
      let is_bullet_point := re_match bullet_point line in
      let is_indented := re_match indented line in
      match is_bullet_point, is_indented with
      | None, None => []
      | _, _ =>
        let cleaned :=
          match is_bullet_point with
          | Some _ => strip U (re_sub bullet_point [] line)
          | None => strip U line
          end in
        if (3 <? length cleaned)%nat then
          let line_lower := lower U cleaned in
          if any_in requirement_indicators line_lower then
            match cleaned with
            | [] => []
            | _ => [capitalize cleaned]
            end
          else []
        else []
      end
    end) lines.

End Extractor.

Local Close Scope N_scope.
Local Open Scope Q_scope.

(** ** Exceptions

    [Raise e] is the propagation of an exception of class [Exception],
    the ones an [except Exception] clause catches. *)

Inductive exc (A : Type) : Type :=
| Return (a : A)
| Raise (e : string).
Arguments Return {A} a.
Arguments Raise {A} e%_string.

Definition bind {A B} (m : exc A) (f : A -> exc B) : exc B :=
  match m with
  | Return a => f a
  | Raise e => Raise e
  end.

Notation "x <- m ;; k" := (bind m (fun x => k))
  (at level 61, m at next level, right associativity).

(** [try: body  except Exception: handler] *)
Definition try_except {A} (body : exc A) (handler : string -> exc A) : exc A :=
  match body with
  | Return a => Return a
  | Raise e => handler e
  end.

(** A [for] loop threading the loop's state; it stops at the first
    exception that leaves the body. *)
Fixpoint for_each {A S} (items : list A) (body : S -> A -> exc S) (s : S)
  : exc S :=
  match items with
  | [] => Return s
  | x :: rest => s' <- body s x ;; for_each rest body s'
  end.

(** ** The values the NER pipeline may hand back *)

Inductive pyval :=
| VNone
| VBool (b : bool)
| VNum (q : Q)                       (* int, float, numpy float *)
| VStr (s : str)
| VList (l : list pyval)
| VDict (d : list (string * pyval))
| VRepr (v : pyval).                 (* the string [str(v)], left symbolic *)

Definition is_nil {A} (l : list A) : bool :=
  match l with [] => true | _ => false end.

Definition truthy (v : pyval) : bool :=
  match v with
  | VNone => false
  | VBool b => b
  | VNum q => negb (Qeq_bool q 0)
  | VStr s => negb (is_nil s)
  | VList l => negb (is_nil l)
  | VDict d => negb (is_nil d)
  | VRepr _ => true
  end.

(** [a or b] *)
Definition py_or (a b : pyval) : pyval := if truthy a then a else b.

(** [d.get(key)] *)
Definition py_get (d : list (string * pyval)) (key : string) : pyval :=
  match dict_get d key with
  | Some v => v
  | None => VNone
  end.

(** [v > x] for a float [x]; other operand types raise [TypeError]. *)
Definition py_gt (v : pyval) (x : Q) : exc bool :=
  match v with
  | VNum q => Return (negb (Qle_bool q x))
  | VBool b => Return (negb (Qle_bool (if b then 1 else 0) x))
  | _ => Raise "TypeError"
  end.

(** [for entity in entities] *)
Definition py_iter (v : pyval) : exc (list pyval) :=
  match v with
  | VList l => Return l
  | VDict d => Return (map (fun kv => VStr (u (fst kv))) d)
  | VStr s => Return (map (fun c => VStr [c]) s)
  | VRepr _ => Return []              (* characters: none of them a dict *)
  | _ => Raise "TypeError"
  end.

Record Entity := {
  ent_text : pyval;
  ent_type : pyval;
  ent_confidence : pyval
}.

Record Summary := {
  total_sentences : nat;
  requirement_sentences : nat;
  requirement_density : Q;
  estimated_requirements : nat
}.

Record Requirements := {
  text_requirements : list str;
  individual_requirements : list str;
  entity_requirements : list Entity;
  categorized_requirements : dict (list str);
  summary : Summary
}.

(** The dictionary [extract_requirements] returns. *)
Inductive ExtractResult :=
| ErrorResult (error : str)
| RequirementsResult (r : Requirements).

Record Analysis := {
  requirements : ExtractResult;
  text_length : nat;
  word_count : nat;
  complexity_score : Q;
  recommendations : list str
}.

Definition many_requirements : str :=
  u "This job has many requirements - consider if you meet most criteria".
Definition fewer_requirements : str :=
  u "This job has fewer requirements - may be more entry-level".
Definition technical_advice : str :=
  u "Focus on highlighting relevant technical skills in your resume".
Definition experience_advice : str :=
  u "Emphasize relevant work experience and achievements".
Definition education_advice : str :=
  u "Ensure your education credentials are clearly stated".

(** [a / b] on two [int]s, as the exact quotient. *)
Definition true_div (a b : nat) : Q :=
  inject_Z (Z.of_nat a) / inject_Z (Z.of_nat b).

Definition list_item (d : dict (list str)) (key : string) : list str :=
  match dict_get d key with
  | Some l => l
  | None => []
  end.

Section Analysis.
Variable U : Runtime.
(** [self.ner_pipeline]: [None] when the model failed to load. *)
Variable ner_pipeline : option (str -> exc pyval).

(** The body of the inner [try] of [_extract_entities]: the records to
    append for one [entity]. *)
Definition entity_body (entity : pyval) : exc (list Entity) :=
  match entity with
  | VDict d =>
      let entity_type :=
        py_or (py_or (py_get d "entity_group") (py_get d "entity_type"))
              (VStr (u "UNKNOWN")) in
      let entity_text :=
        py_or (py_or (py_get d "word") (py_get d "text")) (VRepr entity) in
      let entity_score := py_or (py_get d "score") (VNum 0) in
      high <- py_gt entity_score (7 # 10) ;;
      if (high : bool) then
        Return [ {| ent_text := entity_text;
                    ent_type := entity_type;
                    ent_confidence := entity_score |} ]
      else Return []
  | _ => Return []
  end.

Definition _extract_entities (text : str) : exc (list Entity) :=
  match ner_pipeline with
  | None => Return []
  | Some pipeline =>
      try_except
        (entities <- pipeline text ;;
         items <- py_iter entities ;;
         for_each items
           (fun relevant_entities entity =>
              try_except
                (found <- entity_body entity ;;
                 Return (relevant_entities ++ found))
                (fun _ => Return relevant_entities))
           [])
        (fun _ => Return [])
  end.

(** The loop of [_categorize_requirements] over [self.categories] for one
    requirement. *)
Definition categorize_one (req : str) (categorized : dict (list str))
  : dict (list str) :=
  let req_lower := lower U req in
  fold_left
    (fun categorized (entry : string * list str) =>
       let (category, keywords) := entry in
       if any_in keywords req_lower then
         let cleaned := strip U req in
         let cleaned := re_sub (leading_markers U) [] cleaned in
         match cleaned with
         | [] => categorized
         | _ =>
             let cleaned := capitalize U cleaned in
             if mem cleaned (list_item categorized category)
             then categorized
             else dict_update categorized category
                              (fun items => items ++ [cleaned])
         end
       else categorized)
    categories categorized.

(** [_categorize_requirements] from the point where [all_requirements]
    is known. *)
Definition categorize_candidates (all_requirements : list str)
  : dict (list str) :=
  let categorized := map (fun entry => (fst entry, [])) categories in
  let categorized :=
    fold_left
      (fun categorized req =>
         if is_nil req || (length req <? 10)%nat then categorized
         else categorize_one req categorized)
      all_requirements categorized in
  filter (fun entry => negb (is_nil (snd entry))) categorized.

Definition _categorize_requirements (text : str) : dict (list str) :=
  let individual_reqs := _extract_individual_requirements U text in
  let text_reqs := _extract_text_patterns U text in
  categorize_candidates (individual_reqs ++ text_reqs).

Definition _generate_summary (text : str) : Summary :=
  let sentences := re_split summary_split text in
  let sentences :=
    map (strip U)
        (filter (fun s => (20 <? length (strip U s))%nat) sentences) in
  let requirement_count :=
    length (filter (fun sentence =>
                      any_in requirement_keywords (lower U sentence))
                   sentences) in
  let extracted_requirements := _extract_text_patterns U text in
  let individual_requirements := _extract_individual_requirements U text in
  {| total_sentences := length sentences;
     requirement_sentences := requirement_count;
     requirement_density :=
       if is_nil sentences then 0
       else true_div requirement_count (length sentences);
     estimated_requirements :=
       (length extracted_requirements + length individual_requirements)%nat
  |}.

Definition extract_requirements (job_description : str)
  : exc ExtractResult :=
  if is_nil job_description then
    Return (ErrorResult (u "No job description provided"))
  else
    let cleaned_text := _clean_text U job_description in
    let individual_reqs :=
      _extract_individual_requirements U job_description in
    let text_reqs := _extract_text_patterns U cleaned_text in
    entities <- _extract_entities cleaned_text ;;
    Return (RequirementsResult
      {| text_requirements := text_reqs;
         individual_requirements := individual_reqs;
         entity_requirements := entities;
         categorized_requirements :=
           _categorize_requirements job_description;
         summary := _generate_summary job_description |}).

Definition _calculate_complexity (text : str) : Q :=
  let words := split_ws U text in
  if is_nil words then 0
  else
    let avg_word_length :=
      true_div (list_sum (map (@length char) words)) (length words) in
    let sentences := re_split sentence_end text in
    let avg_sentence_length :=
      if is_nil sentences then 0
      else true_div
             (list_sum
                (map (fun s => length (split_ws U s))
                     (filter (fun s => negb (is_nil (strip U s)))
                             sentences)))
             (length sentences) in
    let technical_count :=
      length (filter (fun word => mem (lower U word) technical_terms)
                     words) in
    let technical_density := true_div technical_count (length words) in
    let complexity :=
      avg_word_length * (3 # 10) + avg_sentence_length * (4 # 10)
      + technical_density * (3 # 10) in
    Qmin complexity 10.

(** [requirements.get('summary', {}).get('requirement_density', 0)] *)
Definition density_of (requirements : ExtractResult) : Q :=
  match requirements with
  | ErrorResult _ => 0
  | RequirementsResult r => requirement_density (summary r)
  end.

Definition _generate_recommendations (requirements : ExtractResult)
  : list str :=
  let populated (cats : dict (list str)) (key : string) : bool :=
    match dict_get cats key with
    | Some items => (0 <? length items)%nat
    | None => false
    end in
  let from_categories :=
    match requirements with
    | ErrorResult _ => []
    | RequirementsResult r =>
        let cats := categorized_requirements r in
        if is_nil cats then []
        else
          (if populated cats "technical_skills"%string
           then [technical_advice] else [])
          ++ (if populated cats "experience"%string
              then [experience_advice] else [])
          ++ (if populated cats "education"%string
              then [education_advice] else [])
    end in
  from_categories
  ++ (if negb (Qle_bool (density_of requirements) (3 # 10))
      then [many_requirements] else [fewer_requirements]).

Definition analyze_job_description (job_description : str)
  : exc Analysis :=
  requirements <- extract_requirements job_description ;;
  Return {| requirements := requirements;
            text_length := length job_description;
            word_count := length (split_ws U job_description);
            complexity_score := _calculate_complexity job_description;
            recommendations := _generate_recommendations requirements |}.

End Analysis.

(** ** The division of the summary

    [a / b] on two [int]s as Python evaluates it: it raises
    [ZeroDivisionError] on a zero divisor. *)
Definition py_truediv (a b : nat) : exc Q :=
  match b with
  | O => Raise "ZeroDivisionError"
  | S _ => Return (true_div a b)
  end.

(** [_generate_summary] once more, statement by statement, with the
    division that can raise: the dictionary is built entry by entry, and the
    quotient of [requirement_density] is evaluated only when [sentences] is
    not empty.  [_generate_summary] above is the summary this returns. *)
Definition _generate_summary_checked (U : Runtime) (text : str)
  : exc Summary :=
  let sentences := re_split summary_split text in
  let sentences :=
    map (strip U)
        (filter (fun s => (20 <? length (strip U s))%nat) sentences) in
  let requirement_count :=
    length (filter (fun sentence =>
                      any_in requirement_keywords (lower U sentence))
                   sentences) in
  let extracted_requirements := _extract_text_patterns U text in
  let individual_requirements := _extract_individual_requirements U text in
  density <-
    (if is_nil sentences then Return 0
     else py_truediv requirement_count (length sentences)) ;;
  Return {| total_sentences := length sentences;
            requirement_sentences := requirement_count;
            requirement_density := density;
            estimated_requirements :=
              (length extracted_requirements
               + length individual_requirements)%nat |}.

(** ** The batch processor ([batch_processor.py])

    Printing is left out.  The file system is a parameter: what reading a
    path gives, what [Path(p).name] is, whether a path is a directory and
    what [glob] lists there.  So is [round(x, 2)]. *)

(** One element of [self.results]: the dictionary of the [except] branch of
    [process_file], or an analysis with its [file_info] or [row_info]. *)
Inductive BatchResult :=
| FileFailure (error : str) (filename file_path : str)
| FileAnalysis (analysis : Analysis) (filename file_path : str)
               (file_size : nat)
| RowAnalysis (analysis : Analysis) (row_number : nat) (row_id : str).

(** ['error' not in r], with the analysis of [r] when it holds. *)
Definition analysis_of (r : BatchResult) : option Analysis :=
  match r with
  | FileFailure _ _ _ => None
  | FileAnalysis a _ _ _ => Some a
  | RowAnalysis a _ _ => Some a
  end.

Record BatchSummary := {
  total_files_processed : nat;
  successful_analyses : nat;
  failed_analyses : nat;
  success_rate : Q;
  total_text_length : nat;
  total_word_count : nat;
  average_complexity_score : Q;
  total_requirements_found : nat;
  average_requirements_per_job : Q;
  category_distribution : dict nat
}.

(** What [generate_summary_report] returns. *)
Inductive SummaryReport :=
| NoResults (error : str)
| Report (s : BatchSummary).

(** [if category not in category_counts: category_counts[category] = 0]
    then [category_counts[category] += len(items)]. *)
Definition count_category (category_counts : dict nat)
           (entry : string * list str) : dict nat :=
  let (category, items) := entry in
  let category_counts :=
    match dict_get category_counts category with
    | Some _ => category_counts
    | None => category_counts ++ [(category, 0%nat)]
    end in
  dict_update category_counts category (fun n => (n + length items)%nat).

(** [sum(...)] of floats. *)
Definition sum_Q (l : list Q) : Q := fold_left Qplus l 0.

Section Batch.
Variable U : Runtime.
Variable ner_pipeline : option (str -> exc pyval).
Variable read_file : str -> exc str.
Variable path_name : str -> str.
Variable is_directory : str -> bool.
Variable glob : str -> str -> list str.
Variable round2 : Q -> Q.

Definition process_file (file_path : str) : BatchResult :=
  match
    (content <- read_file file_path ;;
     analysis <- analyze_job_description U ner_pipeline content ;;
     Return (FileAnalysis analysis (path_name file_path) file_path
                          (length content)))
  with
  | Return result => result
  | Raise e => FileFailure (u e) (path_name file_path) file_path
  end.

(** The results, which are also stored in [self.results]. *)
Definition process_directory (directory_path : str)
           (file_extensions : option (list str)) : exc (list BatchResult) :=
  let file_extensions :=
    match file_extensions with
    | None => [u ".txt"; u ".md"]
    | Some extensions => extensions
    end in
  if negb (is_directory directory_path) then Raise "ValueError"
  else
    let files := flat_map (glob directory_path) file_extensions in
    Return (map process_file files).

(** The loop of [generate_summary_report] over [self.results]: the state is
    [(total_requirements, category_counts)]. *)
Definition tally (state : nat * dict nat) (result : BatchResult)
  : nat * dict nat :=
  let (total_requirements, category_counts) := state in
  match analysis_of result with
  | None => state
  | Some analysis =>
      match requirements analysis with
      | ErrorResult _ => state
      | RequirementsResult reqs =>
          ((total_requirements
            + estimated_requirements (summary reqs))%nat,
           fold_left count_category (categorized_requirements reqs)
                     category_counts)
      end
  end.

Definition generate_summary_report (results : list BatchResult)
  : SummaryReport :=
  if is_nil results then NoResults (u "No results to summarize")
  else
    let total_files := length results in
    let analyses := flat_map (fun r => match analysis_of r with
                                       | Some a => [a]
                                       | None => []
                                       end) results in
    let successful_analyses := length analyses in
    let failed_analyses := (total_files - successful_analyses)%nat in
    let total_text_length := list_sum (map text_length analyses) in
    let total_word_count := list_sum (map word_count analyses) in
    let avg_complexity :=
      if (0 <? successful_analyses)%nat
      then sum_Q (map complexity_score analyses)
           / inject_Z (Z.of_nat successful_analyses)
      else 0 in
    let (total_requirements, category_counts) :=
      fold_left tally results (0%nat, []) in
    Report
      {| total_files_processed := total_files;
         successful_analyses := successful_analyses;
         failed_analyses := failed_analyses;
         success_rate :=
           if (0 <? total_files)%nat
           then true_div successful_analyses total_files else 0;
         total_text_length := total_text_length;
         total_word_count := total_word_count;
         average_complexity_score := round2 avg_complexity;
         total_requirements_found := total_requirements;
         average_requirements_per_job :=
           if (0 <? successful_analyses)%nat
           then round2 (true_div total_requirements successful_analyses)
           else 0;
         category_distribution := category_counts |}.

End Batch.

(** ** The command line ([cli.py])

    What [main] writes, call by call.  Each write is a step that returns or
    raises (a [print] raises [UnicodeEncodeError] on a console that cannot
    encode the text). *)
Inductive Message :=
| EmptyDescription                    (* "Error: Empty job description" *)
| Initializing                        (* "Initializing Job Requirements Extractor..." *)
| UsingModel                          (* "Using model: ..." *)
| ConfidenceThreshold                 (* "Confidence threshold: ..." *)
| Analyzing                           (* "Analyzing job description..." *)
| Results (analysis : Analysis)       (* print_results(analysis, args.verbose) *)
| Saved (analysis : Analysis)         (* save_results(analysis, args.output) *)
| Complete                            (* "Analysis complete!" *)
| ErrorDuringAnalysis (e : string).   (* "Error during analysis: ..." *)

(** How [main] ends: with exit status 1 ([sys.exit(1)], or an exception that
    nothing catches), or normally, after the results of [analysis] have been
    printed. *)
Inductive CliOutcome :=
| Exit1
| Completed (analysis : Analysis).

(** [m] for its effect, then [k]. *)
Definition and_then {A B} (m : exc A) (k : exc B) : exc B :=
  bind m (fun _ => k).

Section Cli.
Variable U : Runtime.
(** The console and the output file. *)
Variable emit : Message -> exc unit.
(** [JobRequirementsExtractor(args.model)]: the [ner_pipeline] of the
    extractor built, or the exception that leaves the constructor. *)
Variable build_extractor : exc (option (str -> exc pyval)).
(** [args.output] is given. *)
Variable output : bool.

(** [main] from the point where [job_description] is known. *)
Definition cli_main (job_description : str) : CliOutcome :=
  if is_nil (strip U job_description) then
    (* print the error, then sys.exit(1); if the print raises, the
       exception leaves main and the status is 1 as well *)
    match emit EmptyDescription with
    | Return _ => Exit1
    | Raise _ => Exit1
    end
  else
    match
      and_then (emit Initializing)
     (and_then (emit UsingModel)
     (and_then (emit ConfidenceThreshold)
     (ner_pipeline <- build_extractor ;;
      and_then (emit Analyzing)
     (analysis <- analyze_job_description U ner_pipeline job_description ;;
      and_then (emit (Results analysis))
     (and_then (if output then emit (Saved analysis) else Return tt)
     (and_then (emit Complete)
     (Return analysis)))))))
    with
    | Return analysis => Completed analysis
    | Raise e =>
        (* except Exception: print the error, then sys.exit(1) *)
        match emit (ErrorDuringAnalysis e) with
        | Return _ => Exit1
        | Raise _ => Exit1
        end
    end.

End Cli.

(** The categorized requirements a result brings to the summary report. *)
Definition categories_of (r : BatchResult) : dict (list str) :=
  match analysis_of r with
  | Some analysis =>
      match requirements analysis with
      | RequirementsResult reqs => categorized_requirements reqs
      | ErrorResult _ => []
      end
  | None => []
  end.

(** The estimate a result brings to the summary report. *)
Definition estimate_of (r : BatchResult) : nat :=
  match analysis_of r with
  | Some analysis =>
      match requirements analysis with
      | RequirementsResult reqs => estimated_requirements (summary reqs)
      | ErrorResult _ => 0%nat
      end
  | None => 0%nat
  end.

(** The number of items a mapping files under [key]. *)
Definition filed (key : string) (cats : dict (list str)) : nat :=
  list_sum (map (fun entry : string * list str =>
                   if String.eqb (fst entry) key then length (snd entry)
                   else 0%nat) cats).

(** [key] is a key of the mapping. *)
Definition has_key {V} (key : string) (d : dict V) : bool :=
  existsb (fun entry => String.eqb (fst entry) key) d.

(** [dict.get(key, 0)] *)
Definition count_of (d : dict nat) (key : string) : nat :=
  match dict_get d key with
  | Some n => n
  | None => 0%nat
  end.

(** ** Auxiliary definitions for the statements *)

(** A runtime whose tables know nothing above U+007F and whose sets iterate
    in order of last insertion.  Used to instantiate the results. *)
Definition ascii_runtime : Runtime :=
  {| uni_isspace := fun _ => false;
     uni_isdecimal := fun _ => false;
     uni_isalnum := fun _ => false;
     uni_isalpha := fun _ => false;
     uni_lower := fun s => s;
     uni_upper := fun c => [c];
     set_iteration := nodup str_eq_dec;
     set_iteration_perm := fun l => Permutation_refl _ |}.

(** ['\n'.join(lines)] *)
Definition join_lines (lines : list str) : str :=
  match lines with
  | [] => []
  | first :: rest => first ++ flat_map (fun line => nl :: line) rest
  end.

(** The three bullet lines of the end-to-end scenario. *)
Definition three_bullets : str :=
  join_lines [ u "- 5+ years of experience";
               u "- AWS knowledge required";
               u "- We value teamwork" ].

(** [req.strip()] followed by the removal of leading markers, as
    [_categorize_requirements] does before capitalizing. *)
Definition marker_stripped (U : Runtime) (req : str) : str :=
  re_sub (leading_markers U) [] (strip U req).

(** The body of the loop of [categorize_one] over [self.categories]. *)
Definition visit (U : Runtime) (req : str) (categorized : dict (list str))
           (entry : string * list str) : dict (list str) :=
  let (category, keywords) := entry in
  if any_in keywords (lower U req) then
    match marker_stripped U req with
    | [] => categorized
    | _ =>
        let cleaned := capitalize U (marker_stripped U req) in
        if mem cleaned (list_item categorized category) then categorized
        else dict_update categorized category
                         (fun items => items ++ [cleaned])
    end
  else categorized.

(** What [visit] does to the list of its category. *)
Definition touch (U : Runtime) (keywords : list str) (req : str)
           (items : list str) : list str :=
  if any_in keywords (lower U req) then
    match marker_stripped U req with
    | [] => items
    | _ =>
        let cleaned := capitalize U (marker_stripped U req) in
        if mem cleaned items then items else items ++ [cleaned]
    end
  else items.

(** The body of the loop of [categorize_candidates] over
    [all_requirements]. *)
Definition sweep (U : Runtime) (categorized : dict (list str)) (req : str)
  : dict (list str) :=
  if is_nil req || (length req <? 10)%nat then categorized
  else categorize_one U req categorized.

(** What one requirement does to the list of one category. *)
Definition category_step (U : Runtime) (keywords : list str)
           (items : list str) (req : str) : list str :=
  if is_nil req || (length req <? 10)%nat then items
  else if any_in keywords (lower U req) then
    match marker_stripped U req with
    | [] => items
    | _ =>
        let cleaned := capitalize U (marker_stripped U req) in
        if mem cleaned items then items else items ++ [cleaned]
    end
  else items.

Definition category_items (U : Runtime) (keywords : list str)
           (reqs : list str) : list str :=
  fold_left (category_step U keywords) reqs [].

(** A requirement the categorizer files under the category with these
    keywords: long enough, matching a keyword, and not made of markers only. *)
Definition files_under (U : Runtime) (keywords : list str) (req : str) : Prop :=
  (10 <= length req)%nat
  /\ any_in keywords (lower U req) = true
  /\ marker_stripped U req <> [].

(** The complexity score as the specification words it: the mean sentence
    length is taken over the non-empty segments only, in the sum and in the
    divisor. *)
Definition complexity_as_specified (U : Runtime) (text : str) : Q :=
  let words := split_ws U text in
  if is_nil words then 0
  else
    let avg_word_length :=
      true_div (list_sum (map (@length char) words)) (length words) in
    let segments :=
      filter (fun s => negb (is_nil (strip U s)))
             (re_split sentence_end text) in
    let avg_sentence_length :=
      if is_nil segments then 0
      else true_div (list_sum (map (fun s => length (split_ws U s)) segments))
                    (length segments) in
    let technical_density :=
      true_div (length (filter (fun word => mem (lower U word) technical_terms)
                               words))
               (length words) in
    Qmin (avg_word_length * (3 # 10) + avg_sentence_length * (4 # 10)
          + technical_density * (3 # 10)) 10.

(** The tags of the specification's category set. *)
Definition specified_tags : list string :=
  [ "experience"; "education"; "technical_skills"; "soft_skills"; "tools";
    "methodologies"; "languages"; "industries" ]%string.

(** The end-to-end scenario as the specification states it: exactly the
    first two lines, with their markers stripped, are list requirements, the
    first is filed under experience and the second under technical skills. *)
Definition scenario_as_stated (U : Runtime) : Prop :=
  let reqs := _extract_individual_requirements U three_bullets in
  let cats := _categorize_requirements U three_bullets in
  (forall c, In c reqs <->
             c = u "5+ years of experience" \/ c = u "AWS knowledge required")
  /\ In (u "5+ years of experience") (list_item cats "experience")
  /\ In (u "AWS knowledge required") (list_item cats "technical_skills").

(** The estimate of the summary as the specification states it: the sum of
    the lengths of the two requirement lists of the same report. *)
Definition estimate_counts_report (U : Runtime)
           (ner : option (str -> exc pyval)) (text : str) : Prop :=
  exists r,
    extract_requirements U ner text = Return (RequirementsResult r)
    /\ estimated_requirements (summary r) =
       (length (text_requirements r) + length (individual_requirements r))%nat.

(** What one record of the pipeline's answer contributes to the result. *)
Definition kept (entity : pyval) : list Entity :=
  match entity_body entity with
  | Return found => found
  | Raise _ => []
  end.

(** A record the loop of [_extract_entities] skips: not a dictionary, or a
    dictionary whose processing raises. *)
Definition malformed (entity : pyval) : Prop :=
  (forall d, entity <> VDict d) \/ (exists e, entity_body entity = Raise e).

(** The density advisory [_generate_recommendations] appends. *)
Definition density_advisory (density : Q) : str :=
  if negb (Qle_bool density (3 # 10)) then many_requirements
  else fewer_requirements.

(** A line begins with a bullet, dash or number marker. *)
Definition begins_with_marker (U : Runtime) (line : str) : bool :=
  match line with
  | c :: _ => one_of [45; bullet; 42]%N c || isdigit U c
  | [] => false
  end.

(** The number of whitespace characters a line begins with. *)
Fixpoint leading_whitespace (U : Runtime) (line : str) : nat :=
  match line with
  | c :: rest => if isspace U c then S (leading_whitespace U rest) else O
  | [] => O
  end.

(** The categorizer as the specification states it: every candidate whose
    lowercase form contains a keyword of a category is in that category's
    list, marker-stripped and capitalized. *)
Definition files_every_match (U : Runtime) (reqs : list str) : Prop :=
  forall category keywords req,
    dict_get categories category = Some keywords ->
    In req reqs ->
    any_in keywords (lower U req) = true ->
    In (capitalize U (marker_stripped U req))
       (list_item (categorize_candidates U reqs) category).

(** One candidate for each category of [self.categories]. *)
Definition one_per_category : list str :=
  [ u "5 years of experience"; u "Bachelor in physics";
    u "Python programming"; u "Strong communication";
    u "Working with Jira"; u "Agile development" ].

(** The first character of [s] is in the class [p]. *)
Definition first_is (p : char -> bool) (s : str) : bool :=
  match s with
  | c :: _ => p c
  | [] => false
  end.

(** A character [_clean_text] lets through: [\w], [\s] or one of
    [- . , ; : ! ? ( ) • *]. *)
Definition allowed_character (U : Runtime) (c : char) : bool :=
  isword U c || isspace U c
  || one_of [45; 46; 44; 59; 58; 33; 63; 40; 41; bullet; 45; 42]%N c.

(** [seg] is a contiguous piece of [text]. *)
Definition infix (seg text : str) : Prop :=
  exists before after, text = before ++ seg ++ after.

(** ['key' in cats and len(cats['key']) > 0] *)
Definition populated (cats : dict (list str)) (key : string) : bool :=
  match dict_get cats key with
  | Some items => (0 <? length items)%nat
  | None => false
  end.

(** ['error' in r] *)
Definition is_failure (r : BatchResult) : bool :=
  match analysis_of r with
  | None => true
  | Some _ => false
  end.

(** An analysis that [analyze_job_description] returns for some text. *)
Definition produced (U : Runtime) (ner : option (str -> exc pyval))
           (a : Analysis) : Prop :=
  exists text, analyze_job_description U ner text = Return a.

(** Reading the path raises. *)
Definition unreadable (read_file : str -> exc str) (path : str) : bool :=
  match read_file path with
  | Raise _ => true
  | Return _ => false
  end.

(** A file system with one readable file, for the examples: [jobs] is a
    directory, [glob] finds [a.txt] and [b.txt] there, and only [a.txt]
    can be read. *)
Definition example_read (path : str) : exc str :=
  if mem path [u "jobs/a.txt"] then Return (u "- Python is required")
  else Raise "FileNotFoundError".
Definition example_is_directory (path : str) : bool := mem path [u "jobs"].
Definition example_glob (directory extension : str) : list str :=
  if mem extension [u ".txt"] then [u "jobs/a.txt"; u "jobs/b.txt"] else [].

(** ** Dictionaries *)

Lemma dict_keys_update {V} (d : dict V) key f :
  dict_keys (dict_update d key f) = dict_keys d.
Proof.
  induction d as [|[k v] d IH]; simpl; auto.
  destruct (String.eqb k key); simpl; auto.
  now rewrite IH.
Qed.

Lemma dict_get_update {V} (d : dict V) key f key' :
  dict_get (dict_update d key f) key' =
  if String.eqb key key' then option_map f (dict_get d key')
  else dict_get d key'.
Proof.
  induction d as [|[k v] d IH]; simpl.
  - now destruct (String.eqb key key').
  - destruct (String.eqb k key) eqn:E; simpl.
    + apply String.eqb_eq in E; subst k.
      destruct (String.eqb key key'); reflexivity.
    + destruct (String.eqb k key') eqn:E'.
      * apply String.eqb_eq in E'; subst k.
        rewrite String.eqb_sym, E. reflexivity.
      * apply IH.
Qed.

Lemma dict_get_absent {V} (d : dict V) key :
  ~ In key (dict_keys d) -> dict_get d key = None.
Proof.
  induction d as [|[k v] d IH]; simpl; auto.
  intros H. destruct (String.eqb k key) eqn:E.
  - apply String.eqb_eq in E. tauto.
  - apply IH. tauto.
Qed.

Lemma dict_get_present {V} (d : dict V) key v :
  dict_get d key = Some v -> In key (dict_keys d).
Proof.
  induction d as [|[k w] d IH]; simpl; [discriminate|].
  destruct (String.eqb k key) eqn:E.
  - apply String.eqb_eq in E. auto.
  - auto.
Qed.

Lemma dict_keys_filter {V} (p : string * V -> bool) (d : dict V) key :
  In key (dict_keys (filter p d)) -> In key (dict_keys d).
Proof.
  unfold dict_keys. rewrite !in_map_iff.
  intros [e [He Hin]]. apply filter_In in Hin. exists e. tauto.
Qed.

Lemma dict_get_filter (d : dict (list str)) key :
  NoDup (dict_keys d) ->
  dict_get (filter (fun entry => negb (is_nil (snd entry))) d) key =
  match dict_get d key with
  | Some (x :: l) => Some (x :: l)
  | _ => None
  end.
Proof.
  induction d as [|[k v] d IH]; simpl; auto.
  intros ND. inversion ND as [|? ? Hk ND']; subst.
  destruct v as [|x l]; simpl.
  - destruct (String.eqb k key) eqn:E.
    + apply String.eqb_eq in E; subst k.
      apply dict_get_absent. intros H. apply Hk.
      eapply dict_keys_filter; eauto.
    + auto.
  - destruct (String.eqb k key); auto.
Qed.

Lemma dict_keys_present_filter (d : dict (list str)) key :
  In key (dict_keys (filter (fun entry => negb (is_nil (snd entry))) d)) ->
  exists l, In (key, l) d /\ l <> [].
Proof.
  unfold dict_keys. rewrite in_map_iff.
  intros [[k l] [He Hin]]. simpl in He; subst k.
  apply filter_In in Hin. destruct Hin as [Hin Hne].
  exists l. split; auto. destruct l; [discriminate | congruence].
Qed.

(** ** The categorizer, one category at a time *)

Section Categorizer.
Variable U : Runtime.

Lemma categories_keys_nodup : NoDup (dict_keys categories).
Proof.
  unfold dict_keys, categories; simpl.
  repeat (constructor; [simpl; intuition discriminate|]).
  constructor.
Qed.

Lemma categorize_one_fold req categorized :
  categorize_one U req categorized = fold_left (visit U req) categories categorized.
Proof. reflexivity. Qed.

Lemma visit_keys req d entry :
  dict_keys (visit U req d entry) = dict_keys d.
Proof.
  destruct entry as [c kws]. unfold visit.
  destruct (any_in kws (lower U req)); auto.
  destruct (marker_stripped U req); auto.
  destruct (mem _ _); auto using dict_keys_update.
Qed.

Lemma visit_get req d c kws key :
  dict_get (visit U req d (c, kws)) key =
  if String.eqb c key then option_map (touch U kws req) (dict_get d key)
  else dict_get d key.
Proof.
  unfold visit, touch, list_item.
  destruct (String.eqb c key) eqn:E.
  - apply String.eqb_eq in E; subst key.
    destruct (any_in kws (lower U req));
      [|now destruct (dict_get d c)].
    destruct (marker_stripped U req) eqn:Em;
      [now destruct (dict_get d c)|].
    destruct (dict_get d c) as [items|] eqn:Eg; simpl.
    + destruct (mem _ items); [now rewrite Eg|].
      rewrite dict_get_update, String.eqb_refl, Eg. reflexivity.
    + rewrite dict_get_update, String.eqb_refl, Eg. reflexivity.
  - destruct (any_in kws (lower U req)); auto.
    destruct (marker_stripped U req); auto.
    destruct (mem _ _); auto.
    now rewrite dict_get_update, E.
Qed.

Lemma visits_keys req cats d :
  dict_keys (fold_left (visit U req) cats d) = dict_keys d.
Proof.
  revert d. induction cats as [|e cats IH]; [reflexivity|].
  intros d. cbn [fold_left]. now rewrite IH, visit_keys.
Qed.

Lemma visits_get req (cats : dict (list str)) d key :
  NoDup (dict_keys cats) ->
  dict_get (fold_left (visit U req) cats d) key =
  match dict_get cats key with
  | Some kws => option_map (touch U kws req) (dict_get d key)
  | None => dict_get d key
  end.
Proof.
  revert d. induction cats as [|[c kws] cats IH]; [reflexivity|].
  intros d ND. inversion ND as [|? ? Hc ND']; subst.
  cbn [fold_left dict_get].
  rewrite IH by assumption. rewrite visit_get.
  destruct (String.eqb c key) eqn:E.
  - apply String.eqb_eq in E; subst key.
    now rewrite (dict_get_absent cats c Hc).
  - reflexivity.
Qed.

Lemma sweep_keys reqs d :
  dict_keys (fold_left (sweep U) reqs d) = dict_keys d.
Proof.
  revert d. induction reqs as [|req reqs IH]; [reflexivity|].
  intros d. cbn [fold_left]. rewrite IH. unfold sweep.
  destruct (is_nil req || _); auto.
  now rewrite categorize_one_fold, visits_keys.
Qed.

Lemma sweep_get reqs d key kws :
  dict_get categories key = Some kws ->
  dict_get (fold_left (sweep U) reqs d) key =
  option_map (fun items => fold_left (category_step U kws) reqs items)
             (dict_get d key).
Proof.
  intros Hk. revert d.
  induction reqs as [|req reqs IH]; intros d; cbn [fold_left].
  - now destruct (dict_get d key).
  - rewrite IH. unfold sweep, category_step.
    destruct (is_nil req || (length req <? 10)%nat); auto.
    rewrite categorize_one_fold, visits_get, Hk
      by apply categories_keys_nodup.
    destruct (dict_get d key); reflexivity.
Qed.

Lemma initial_get key :
  dict_get (map (fun entry : string * list str => (fst entry, @nil str))
                categories) key =
  option_map (fun _ => []) (dict_get categories key).
Proof.
  induction categories as [|[c kws] cats IH]; simpl; auto.
  destruct (String.eqb c key); auto.
Qed.

Lemma initial_keys :
  dict_keys (map (fun entry : string * list str => (fst entry, @nil str))
                 categories) = dict_keys categories.
Proof. reflexivity. Qed.

(** The output mapping, category by category. *)
Lemma categorize_candidates_get reqs key :
  dict_get (categorize_candidates U reqs) key =
  match dict_get categories key with
  | Some kws =>
      match category_items U kws reqs with
      | [] => None
      | items => Some items
      end
  | None => None
  end.
Proof.
  unfold categorize_candidates.
  change (fun categorized req => _) with (sweep U).
  rewrite dict_get_filter
    by (rewrite sweep_keys; apply categories_keys_nodup).
  destruct (dict_get categories key) as [kws|] eqn:Hk.
  - rewrite (sweep_get _ _ _ Hk), initial_get, Hk. simpl.
    fold (category_items U kws reqs).
    now destruct (category_items U kws reqs).
  - rewrite dict_get_absent; auto.
    rewrite sweep_keys, initial_keys. intros Hin.
    unfold dict_keys in Hin. apply in_map_iff in Hin.
    destruct Hin as [[k v] [Hf Hin]]. simpl in Hf; subst k.
    clear - Hk Hin. induction categories as [|[c w] cats IH]; simpl in *; auto.
    destruct Hin as [Hin|Hin].
    + inversion Hin; subst. now rewrite String.eqb_refl in Hk.
    + destruct (String.eqb c key); [discriminate | auto].
Qed.

Lemma categorize_candidates_keys reqs key :
  In key (dict_keys (categorize_candidates U reqs)) ->
  In key (dict_keys categories).
Proof.
  unfold categorize_candidates.
  change (fun categorized req => _) with (sweep U).
  intros H. apply dict_keys_filter in H.
  now rewrite sweep_keys in H.
Qed.

End Categorizer.

Lemma mem_true x l : mem x l = true <-> In x l.
Proof. unfold mem. destruct (in_dec str_eq_dec x l); intuition discriminate. Qed.

Lemma mem_false x l : mem x l = false <-> ~ In x l.
Proof. unfold mem. destruct (in_dec str_eq_dec x l); intuition discriminate. Qed.

Section CategoryItems.
Variable U : Runtime.
Variable keywords : list str.

Lemma category_step_cases items req :
  (files_under U keywords req /\
   category_step U keywords items req =
     if mem (capitalize U (marker_stripped U req)) items then items
     else items ++ [capitalize U (marker_stripped U req)])
  \/ (~ files_under U keywords req /\ category_step U keywords items req = items).
Proof.
  unfold category_step, files_under.
  destruct req as [|c req].
  - right. simpl. split; auto. intros [H _]. inversion H.
  - cbn [is_nil orb].
    destruct (length (c :: req) <? 10)%nat eqn:El.
    + right. apply Nat.ltb_lt in El. split; auto. intros [H _]. lia.
    + apply Nat.ltb_ge in El.
      destruct (any_in keywords (lower U (c :: req))).
      * destruct (marker_stripped U (c :: req)) eqn:Em.
        -- right. split; auto. intros [_ [_ H]]. now apply H.
        -- left. split; auto. repeat split; auto. discriminate.
      * right. split; auto. intros [_ [H _]]. discriminate.
Qed.

Lemma category_step_keeps items req x :
  In x items -> In x (category_step U keywords items req).
Proof.
  intros Hx.
  destruct (category_step_cases items req) as [[_ E]|[_ E]]; rewrite E; auto.
  destruct (mem _ items); auto. apply in_or_app; auto.
Qed.

Lemma category_fold_keeps reqs items x :
  In x items -> In x (fold_left (category_step U keywords) reqs items).
Proof.
  revert items. induction reqs as [|req reqs IH]; simpl; auto.
  intros items Hx. apply IH. now apply category_step_keeps.
Qed.

Lemma category_fold_complete reqs items req :
  In req reqs -> files_under U keywords req ->
  In (capitalize U (marker_stripped U req))
     (fold_left (category_step U keywords) reqs items).
Proof.
  revert items. induction reqs as [|r reqs IH]; simpl; [tauto|].
  intros items [->|Hin] Hf; [|now apply IH].
  apply category_fold_keeps.
  destruct (category_step_cases items req) as [[_ E]|[Hn _]]; [|tauto].
  rewrite E.
  destruct (mem _ items) eqn:Em.
  - now apply mem_true.
  - apply in_or_app. right. now left.
Qed.

Lemma category_fold_nodup reqs items :
  NoDup items -> NoDup (fold_left (category_step U keywords) reqs items).
Proof.
  revert items. induction reqs as [|r reqs IH]; simpl; auto.
  intros items ND. apply IH.
  destruct (category_step_cases items r) as [[_ E]|[_ E]]; rewrite E; auto.
  destruct (mem _ items) eqn:Em; auto.
  apply mem_false in Em.
  apply NoDup_app; auto.
  - constructor; [intros []|constructor].
  - intros x Hx [<-|[]]. contradiction.
Qed.

Lemma category_fold_sound reqs items x :
  In x (fold_left (category_step U keywords) reqs items) ->
  In x items \/
  exists req, In req reqs /\ files_under U keywords req
              /\ x = capitalize U (marker_stripped U req).
Proof.
  revert items. induction reqs as [|r reqs IH]; simpl; auto.
  intros items Hx. apply IH in Hx. destruct Hx as [Hx|[req [Hin H]]].
  - destruct (category_step_cases items r) as [[Hf E]|[_ E]];
      rewrite E in Hx; auto.
    destruct (mem _ items); auto.
    apply in_app_or in Hx. destruct Hx as [Hx|[<-|[]]]; auto.
    right. exists r. auto.
  - right. exists req. tauto.
Qed.

End CategoryItems.

(** ** Sets of strings *)

Lemma set_iteration_In U l x : In x (set_iteration U l) <-> In x l.
Proof.
  pose proof (set_iteration_perm U l) as P. split; intros H.
  - apply (Permutation_in _ P) in H. now apply nodup_In in H.
  - apply (Permutation_in _ (Permutation_sym P)). now apply nodup_In.
Qed.

Lemma set_iteration_length U l :
  length (set_iteration U l) = length (nodup str_eq_dec l).
Proof. apply Permutation_length, set_iteration_perm. Qed.

(** ** Entities *)

Lemma entity_loop items acc :
  for_each items
    (fun relevant_entities entity =>
       try_except
         (found <- entity_body entity ;; Return (relevant_entities ++ found))
         (fun _ => Return relevant_entities))
    acc
  = Return (acc ++ flat_map kept items).
Proof.
  revert acc. induction items as [|e items IH]; intros acc; simpl.
  - now rewrite app_nil_r.
  - unfold kept. destruct (entity_body e) as [found|err]; simpl.
    + rewrite IH. now rewrite app_assoc.
    + rewrite IH. reflexivity.
Qed.

Lemma _extract_entities_eq ner text :
  _extract_entities ner text =
  match ner with
  | None => Return []
  | Some pipeline =>
      match pipeline text with
      | Return entities =>
          match py_iter entities with
          | Return items => Return (flat_map kept items)
          | Raise _ => Return []
          end
      | Raise _ => Return []
      end
  end.
Proof.
  unfold _extract_entities. destruct ner as [pipeline|]; auto.
  destruct (pipeline text) as [entities|e]; simpl; auto.
  destruct (py_iter entities) as [items|e]; simpl; auto.
  now rewrite entity_loop.
Qed.

Lemma _extract_entities_returns ner text :
  exists found, _extract_entities ner text = Return found.
Proof.
  rewrite _extract_entities_eq. destruct ner as [pipeline|]; eauto.
  destruct (pipeline text) as [entities|e]; eauto.
  destruct (py_iter entities); eauto.
Qed.

Lemma malformed_kept entity : malformed entity -> kept entity = [].
Proof.
  unfold kept. intros [H|[e H]].
  - destruct entity; auto. now destruct (H d).
  - now rewrite H.
Qed.

(** C8. Entity extraction always returns a list: it returns the empty list
    when no NER pipeline is configured and when the pipeline raises, and a
    malformed record (not a dictionary, or one whose processing raises) is
    skipped: the result is the one obtained from the other records alone. *)
Theorem entity_extraction_absorbs_faults
        (ner : option (str -> exc pyval)) (text : str) :
  (exists found, _extract_entities ner text = Return found)
  /\ _extract_entities None text = Return []
  /\ (forall pipeline e,
        pipeline text = Raise e ->
        _extract_entities (Some pipeline) text = Return [])
  /\ (forall pipeline pipeline' before bad after,
        pipeline text = Return (VList (before ++ bad :: after)) ->
        pipeline' text = Return (VList (before ++ after)) ->
        malformed bad ->
        _extract_entities (Some pipeline) text =
        _extract_entities (Some pipeline') text
        /\ _extract_entities (Some pipeline) text =
           Return (flat_map kept before ++ flat_map kept after)).
Proof.
  split; [apply _extract_entities_returns|].
  split; [reflexivity|].
  split.
  - intros pipeline e H. now rewrite _extract_entities_eq, H.
  - intros pipeline pipeline' before bad after H H' Hbad.
    rewrite !_extract_entities_eq, H, H'. simpl.
    rewrite !flat_map_app. simpl.
    now rewrite (malformed_kept Hbad).
Qed.

(** One well-formed record, one whose score is a string, one that is not a
    dictionary, and a second well-formed record. *)
Lemma entity_extraction_absorbs_faults_witness :
  let good1 := VDict [("word"%string, VStr (u "AWS"));
                      ("score"%string, VNum (9 # 10))] in
  let bad := VDict [("word"%string, VStr (u "Java"));
                    ("score"%string, VStr (u "high"))] in
  let good2 := VDict [("entity_group"%string, VStr (u "ORG"));
                      ("text"%string, VStr (u "ACME"));
                      ("score"%string, VNum (99 # 100))] in
  _extract_entities
    (Some (fun _ => Return (VList ([good1] ++ bad :: [VNum 3; good2]))))
    (u "text")
  = Return [ {| ent_text := VStr (u "AWS");
                ent_type := VStr (u "UNKNOWN");
                ent_confidence := VNum (9 # 10) |};
             {| ent_text := VStr (u "ACME");
                ent_type := VStr (u "ORG");
                ent_confidence := VNum (99 # 100) |} ].
Proof.
  intros good1 bad good2.
  destruct (entity_extraction_absorbs_faults
              (Some (fun _ => Return (VList ([good1] ++ bad :: [VNum 3; good2]))))
              (u "text")) as [_ [_ [_ H]]].
  destruct (H (fun _ => Return (VList ([good1] ++ bad :: [VNum 3; good2])))
              (fun _ => Return (VList ([good1] ++ [VNum 3; good2])))
              [good1] bad [VNum 3; good2] eq_refl eq_refl) as [_ E].
  - right. exists "TypeError"%string. reflexivity.
  - rewrite E. reflexivity.
Defined.

(** ** The report *)

Lemma extract_requirements_eq U ner text :
  text <> [] ->
  exists entities,
    _extract_entities ner (_clean_text U text) = Return entities
    /\ extract_requirements U ner text =
       Return (RequirementsResult
         {| text_requirements := _extract_text_patterns U (_clean_text U text);
            individual_requirements := _extract_individual_requirements U text;
            entity_requirements := entities;
            categorized_requirements := _categorize_requirements U text;
            summary := _generate_summary U text |}).
Proof.
  intros Hne.
  destruct (_extract_entities_returns ner (_clean_text U text)) as [ents E].
  exists ents. split; auto.
  unfold extract_requirements. destruct text; [congruence|].
  cbn [is_nil]. now rewrite E.
Qed.

Lemma extract_requirements_returns U ner text :
  exists result, extract_requirements U ner text = Return result.
Proof.
  destruct text as [|c text].
  - eexists. reflexivity.
  - destruct (@extract_requirements_eq U ner (c :: text)) as [ents [_ E]];
      [discriminate | eauto].
Qed.

(** C2. On the empty string [extract_requirements] returns the dictionary
    with the single entry [error: No job description provided], and
    [analyze_job_description] returns a complete report built around it;
    neither raises. *)
Theorem empty_description_reports_error
        (U : Runtime) (ner : option (str -> exc pyval)) :
  extract_requirements U ner [] =
    Return (ErrorResult (u "No job description provided"))
  /\ analyze_job_description U ner [] =
       Return {| requirements := ErrorResult (u "No job description provided");
                 text_length := 0;
                 word_count := 0;
                 complexity_score := 0;
                 recommendations := [fewer_requirements] |}.
Proof. split; reflexivity. Qed.

(** ** Summary *)

Lemma true_div_bounds a b :
  (a <= b)%nat -> (0 < b)%nat -> 0 <= true_div a b <= 1.
Proof.
  intros Hab Hb. unfold true_div.
  assert (Hpos : 0 < inject_Z (Z.of_nat b)).
  { change 0 with (inject_Z 0). rewrite <- Zlt_Qlt. lia. }
  split.
  - apply Qle_shift_div_l; auto. rewrite Qmult_0_l.
    change 0 with (inject_Z 0). rewrite <- Zle_Qle. lia.
  - apply Qle_shift_div_r; auto. rewrite Qmult_1_l.
    rewrite <- Zle_Qle. lia.
Qed.

Lemma _generate_summary_density (U : Runtime) (text : str) :
  let s := _generate_summary U text in
  (requirement_sentences s <= total_sentences s)%nat
  /\ 0 <= requirement_density s <= 1
  /\ (total_sentences s = 0%nat -> requirement_density s = 0).
Proof.
  cbv zeta. unfold _generate_summary. cbn [requirement_sentences
    total_sentences requirement_density].
  set (sentences := map (strip U) _).
  set (count := length (filter _ sentences)).
  assert (Hle : (count <= length sentences)%nat) by apply filter_length_le.
  split; auto. split.
  - destruct sentences as [|s0 rest] eqn:E.
    + cbn [is_nil]. split; apply Qle_refl || discriminate.
    + cbn [is_nil]. apply true_div_bounds; auto. simpl. lia.
  - intros H. destruct sentences; [reflexivity | discriminate].
Qed.

Lemma _generate_summary_checked_returns (U : Runtime) (text : str) :
  _generate_summary_checked U text = Return (_generate_summary U text).
Proof.
  unfold _generate_summary_checked, _generate_summary.
  destruct (map (strip U)
                (filter (fun s => (20 <? length (strip U s))%nat)
                        (re_split summary_split text)))
    as [|sentence sentences]; reflexivity.
Qed.

(** C9. With the division of Python, which raises on a zero divisor, the
    summary is returned for every text and no [ZeroDivisionError] occurs:
    the quotient [requirement_sentences / total_sentences] would raise
    exactly when there is no sentence, and it is not evaluated then.  The
    requirement density of the summary returned is between 0 and 1, and it
    is 0 when there is no sentence. *)
Theorem requirement_density_in_unit_interval (U : Runtime) (text : str) :
  exists s,
    _generate_summary_checked U text = Return s
    /\ s = _generate_summary U text
    /\ (requirement_sentences s <= total_sentences s)%nat
    /\ 0 <= requirement_density s <= 1
    /\ (total_sentences s = 0%nat -> requirement_density s = 0)
    /\ (py_truediv (requirement_sentences s) (total_sentences s)
        = Raise "ZeroDivisionError" <-> total_sentences s = 0%nat).
Proof.
  exists (_generate_summary U text).
  split; [apply _generate_summary_checked_returns|].
  split; [reflexivity|].
  destruct (_generate_summary_density U text) as [Hle [Hrange Hzero]].
  split; [exact Hle|]. split; [exact Hrange|]. split; [exact Hzero|].
  unfold py_truediv.
  destruct (total_sentences (_generate_summary U text));
    split; (reflexivity || discriminate).
Qed.

(** ** Recommendations *)

Lemma category_advice_not_density (pre : list str) :
  incl pre [technical_advice; experience_advice; education_advice] ->
  ~ In many_requirements pre /\ ~ In fewer_requirements pre.
Proof.
  intros Hincl. split; intros H; apply Hincl in H; simpl in H;
    repeat (destruct H as [H|H]; [vm_compute in H; discriminate|]);
    destruct H.
Qed.

Lemma _generate_recommendations_shape (requirements : ExtractResult) :
  exists pre,
    _generate_recommendations requirements =
      pre ++ [density_advisory (density_of requirements)]
    /\ incl pre [technical_advice; experience_advice; education_advice].
Proof.
  unfold _generate_recommendations, density_advisory.
  eexists. split.
  - f_equal. now destruct (negb _).
  - destruct requirements as [e|r]; [intros x []|].
    destruct (is_nil _); [intros x []|].
    intros x Hx. rewrite !in_app_iff in Hx. simpl.
    destruct Hx as [Hx|[Hx|Hx]];
      match type of Hx with
      | In _ (if ?b then _ else _) => destruct b
      end;
      (destruct Hx as [<-|[]] || destruct Hx); auto.
Qed.

(** C10. For every input, the empty string included, the analysis returns a
    report whose recommendations end with the density advisory, and the
    advisory occurs nowhere else in the list: it is the "many requirements"
    message when the requirement density of the report is above 0.3 and the
    "fewer requirements" message otherwise (a report that carries the error
    indicator has no summary, and its density counts as 0). *)
Theorem recommendations_end_with_density_advisory
        (U : Runtime) (ner : option (str -> exc pyval)) (text : str) :
  exists report pre advisory,
    analyze_job_description U ner text = Return report
    /\ recommendations report = pre ++ [advisory]
    /\ ~ In many_requirements pre /\ ~ In fewer_requirements pre
    /\ match requirements report with
       | ErrorResult _ => advisory = fewer_requirements
       | RequirementsResult r =>
           (3 # 10 < requirement_density (summary r) ->
            advisory = many_requirements)
           /\ (requirement_density (summary r) <= 3 # 10 ->
               advisory = fewer_requirements)
       end.
Proof.
  unfold analyze_job_description.
  destruct (extract_requirements_returns U ner text) as [result E].
  rewrite E. cbn [bind].
  destruct (_generate_recommendations_shape result) as [pre [Hrec Hpre]].
  eexists. exists pre. eexists. split; [reflexivity|].
  cbn [recommendations requirements]. split; [exact Hrec|].
  destruct (category_advice_not_density Hpre) as [Hm Hf].
  split; auto. split; auto.
  unfold density_advisory. destruct result as [e|r]; cbn [density_of].
  - reflexivity.
  - destruct (Qle_bool (requirement_density (summary r)) (3 # 10)) eqn:Q.
    + apply Qle_bool_iff in Q. split; auto.
      intros Hlt. exfalso. apply (Qlt_not_le _ _ Hlt Q).
    + split; auto. intros Hle. apply Qle_bool_iff in Hle. congruence.
Qed.

(** ** The estimate of the summary *)

(** C4, as amended. For a non-empty description the report's
    [estimated_requirements] is the number of pattern requirements found in
    the original text plus the length of the report's
    [individual_requirements]; the report's [text_requirements] are those
    of the cleaned text. *)
Theorem estimate_counts_original_text
        (U : Runtime) (ner : option (str -> exc pyval)) (text : str) :
  text <> [] ->
  exists r,
    extract_requirements U ner text = Return (RequirementsResult r)
    /\ text_requirements r = _extract_text_patterns U (_clean_text U text)
    /\ estimated_requirements (summary r) =
       (length (_extract_text_patterns U text)
        + length (individual_requirements r))%nat.
Proof.
  intros Hne.
  destruct (@extract_requirements_eq U ner text Hne) as [ents [_ E]].
  eexists. split; [exact E|]. split; reflexivity.
Qed.

(** A description of ten characters of which six are dropped by cleaning. *)
Lemma estimate_counts_original_text_witness :
  exists r,
    extract_requirements ascii_runtime None (u "must@@@@@@")
      = Return (RequirementsResult r)
    /\ text_requirements r = []
    /\ estimated_requirements (summary r) = 1%nat.
Proof.
  destruct (@estimate_counts_original_text ascii_runtime None (u "must@@@@@@"))
    as [r [E [Ht He]]]; [discriminate|].
  exists r. split; [exact E|]. split.
  - rewrite Ht. reflexivity.
  - rewrite He. injection E as <-. reflexivity.
Defined.

(** C4 fails as stated: for the description [must@@@@@@] the report has no
    text requirement and no individual requirement, yet the estimate is 1,
    whatever the runtime and the pipeline. *)
Lemma estimate_differs_from_report_lists :
  ~ exists U ner, estimate_counts_report U ner (u "must@@@@@@").
Proof.
  intros [U [ner [r [E H]]]].
  destruct (@extract_requirements_eq U ner (u "must@@@@@@")) as [ents [_ E']];
    [discriminate|].
  rewrite E' in E. injection E as <-.
  cbn [summary text_requirements individual_requirements] in H.
  revert H.
  replace (_clean_text U (u "must@@@@@@")) with (u "must")
    by (vm_compute; reflexivity).
  unfold _generate_summary. cbn [estimated_requirements].
  replace (_extract_individual_requirements U (u "must@@@@@@")) with (@nil str)
    by (vm_compute; reflexivity).
  unfold _extract_text_patterns. rewrite !set_iteration_length.
  vm_compute. discriminate.
Qed.

(** ** Complexity *)

(** C3. The score of the empty string is 0.  For [Hello world.] the split
    on sentence terminators yields the segment [Hello world] and an empty
    segment; the code divides the two tokens by both segments, so that the
    mean sentence length is 1 and the score 5.5*0.3 + 1*0.4 = 2.05, where
    the mean over the non-empty segments is 2 and gives 2.45. *)
Theorem complexity_divides_by_all_segments (U : Runtime) :
  _calculate_complexity U [] = 0
  /\ re_split sentence_end (u "Hello world.") = [u "Hello world"; []]
  /\ _calculate_complexity U (u "Hello world.") == 41 # 20
  /\ complexity_as_specified U (u "Hello world.") == 49 # 20.
Proof.
  split; [reflexivity|].
  split; [vm_compute; reflexivity|].
  split; vm_compute; reflexivity.
Qed.

(** ** List requirements *)

Lemma rep_zero_matches {A} p st s (k : bool -> str -> option A) :
  (forall st' s', k st' s' <> None) -> rep p 0 st s k <> None.
Proof.
  intros Hk. revert st. induction s as [|c s IH]; intros st; simpl; auto.
  destruct (p c); auto.
  destruct (rep p 0 false s k) eqn:E; [discriminate | auto].
Qed.

Lemma rep_one_matches {A} p st s (k : bool -> str -> option A) :
  (forall st' s', k st' s' <> None) ->
  rep p 1 st s k <> None <-> first_is p s = true.
Proof.
  intros Hk. destruct s as [|c s]; simpl.
  - split; [tauto | discriminate].
  - destruct (p c).
    + pose proof (rep_zero_matches p false s k Hk) as H.
      destruct (rep p 0 false s k); [|tauto].
      split; [reflexivity | discriminate].
    + split; [tauto | discriminate].
Qed.

Lemma rep_zero_then {A} (p q : char -> bool) st s
      (k : bool -> str -> option A) :
  (forall c, p c = true -> q c = true) ->
  (forall st' s', k st' s' <> None <-> first_is q s' = true) ->
  rep p 0 st s k <> None <-> first_is q s = true.
Proof.
  intros Hpq Hk. revert st. induction s as [|c s IH]; intros st; simpl.
  - apply (Hk st []).
  - destruct (p c) eqn:Ep.
    + destruct (rep p 0 false s k).
      * rewrite (Hpq c Ep). split; [reflexivity | discriminate].
      * apply (Hk st (c :: s)).
    + apply (Hk st (c :: s)).
Qed.

Lemma rep_needs_first {A} p n st s (k : bool -> str -> option A) :
  rep p (S n) st s k <> None -> first_is p s = true.
Proof.
  destruct s as [|c s]; simpl; [tauto|]. now destruct (p c).
Qed.

(** The pattern of [is_bullet_point] matches exactly the lines whose first
    character is in the marker class, whitespace included. *)
Lemma bullet_point_matches U line :
  re_match (bullet_point U) line <> None <->
  first_is (marker_class U) line = true.
Proof.
  unfold re_match, match_at, bullet_point. cbn [rmatch].
  apply rep_zero_then.
  - intros c Hc. unfold marker_class. rewrite Hc.
    now rewrite orb_true_r.
  - intros st' s'. apply rep_one_matches.
    intros st'' s''. apply rep_zero_matches. discriminate.
Qed.

(** A line the pattern of [is_indented] matches is matched by the pattern of
    [is_bullet_point] as well. *)
Lemma indented_is_bullet_point U line :
  re_match (indented U) line <> None ->
  re_match (bullet_point U) line <> None.
Proof.
  intros H. apply bullet_point_matches.
  unfold re_match, match_at, indented in H. cbn [rmatch] in H.
  apply rep_needs_first in H.
  destruct line as [|c line]; simpl in *; [discriminate|].
  unfold marker_class. rewrite H. now rewrite orb_true_r.
Qed.

(** X16. Every list requirement comes from a line whose first character
    is in the marker class [[-•\*\s\d\.\)]], and is that line without its
    leading markers, trimmed and capitalized: one leading whitespace
    character is enough, and the test for four of them decides nothing. *)
Lemma list_requirement_origin U text c :
  In c (_extract_individual_requirements U text) ->
  exists line,
    In line (split_char nl text)
    /\ first_is (marker_class U) line = true
    /\ c = capitalize U (strip U (re_sub (bullet_point U) [] line)).
Proof.
  unfold _extract_individual_requirements. rewrite in_flat_map.
  intros [line [Hline Hc]]. exists line. split; auto.
  destruct (strip U line); [destruct Hc|].
  pose proof (bullet_point_matches U line) as Hb.
  pose proof (@indented_is_bullet_point U line) as Hi.
  destruct (re_match (bullet_point U) line) as [rest|].
  - split; [apply Hb; discriminate|].
    destruct (3 <? length _)%nat; [|destruct Hc].
    destruct (any_in _ _); [|destruct Hc].
    destruct (strip U (re_sub (bullet_point U) [] line)) eqn:E;
      [destruct Hc|].
    destruct Hc as [<-|[]]. reflexivity.
  - destruct (re_match (indented U) line); [|destruct Hc].
    exfalso. apply Hi; [discriminate | reflexivity].
Qed.

(** C7. A line that begins with a single space and carries no bullet, dash
    or number marker yields a candidate: the class of marker characters
    contains the whitespace characters. *)
Theorem single_space_line_is_a_candidate (U : Runtime) :
  begins_with_marker U (u " AWS knowledge required") = false
  /\ leading_whitespace U (u " AWS knowledge required") = 1%nat
  /\ re_match (indented U) (u " AWS knowledge required") = None
  /\ _extract_individual_requirements U (u " AWS knowledge required")
     = [u "AWS knowledge required"].
Proof. repeat split; vm_compute; reflexivity. Qed.

(** ** Categories *)

Lemma categorize_candidates_item U reqs key kws :
  dict_get categories key = Some kws ->
  list_item (categorize_candidates U reqs) key = category_items U kws reqs.
Proof.
  intros Hk. unfold list_item.
  rewrite categorize_candidates_get, Hk.
  now destruct (category_items U kws reqs).
Qed.

Lemma categorize_candidates_present U reqs key kws :
  dict_get categories key = Some kws ->
  In key (dict_keys (categorize_candidates U reqs)) <->
  category_items U kws reqs <> [].
Proof.
  intros Hk. split.
  - intros Hin Hnil.
    destruct (dict_keys_present_filter _ _ Hin) as [l [Hl Hne]].
    assert (G := categorize_candidates_get U reqs key).
    rewrite Hk, Hnil in G.
    destruct (dict_get (categorize_candidates U reqs) key) eqn:E;
      [discriminate|].
    clear - Hin E. revert E.
    induction (categorize_candidates U reqs) as [|[k v] d IH]; simpl in *;
      [tauto|].
    destruct (String.eqb k key) eqn:Ek; [discriminate|].
    destruct Hin as [->|Hin]; [now rewrite String.eqb_refl in Ek | auto].
  - intros Hne.
    assert (G := categorize_candidates_get U reqs key).
    rewrite Hk in G.
    destruct (category_items U kws reqs) eqn:E; [congruence|].
    eapply dict_get_present; eauto.
Qed.

Lemma categorize_candidates_complete U reqs key kws req :
  dict_get categories key = Some kws ->
  In req reqs -> files_under U kws req ->
  In (capitalize U (marker_stripped U req))
     (list_item (categorize_candidates U reqs) key).
Proof.
  intros Hk Hin Hf. rewrite (categorize_candidates_item U reqs _ Hk).
  now apply category_fold_complete.
Qed.

(** C5, as amended. For a category of [self.categories] and any sequence of
    candidates: every candidate of at least 10 characters whose lowercase
    form contains a keyword of the category, and which is not made of marker
    characters only, is in the category's list, marker-stripped and
    capitalized; the list holds nothing else and has no duplicate; and the
    category is a key of the output exactly when its list is not empty. *)
Theorem categorizer_files_long_candidates
        (U : Runtime) (reqs : list str) (category : string)
        (keywords : list str) :
  dict_get categories category = Some keywords ->
  let items := list_item (categorize_candidates U reqs) category in
  (forall req, In req reqs -> files_under U keywords req ->
               In (capitalize U (marker_stripped U req)) items)
  /\ (forall x, In x items ->
        exists req, In req reqs /\ files_under U keywords req
                    /\ x = capitalize U (marker_stripped U req))
  /\ NoDup items
  /\ (In category (dict_keys (categorize_candidates U reqs)) <-> items <> []).
Proof.
  intros Hk items. subst items.
  rewrite (categorize_candidates_item U reqs _ Hk).
  split; [intros req Hin Hf; now apply category_fold_complete|].
  split.
  - intros x Hx. apply category_fold_sound in Hx.
    destruct Hx as [[]|Hx]. exact Hx.
  - split; [apply category_fold_nodup; constructor|].
    now apply categorize_candidates_present.
Qed.

(** A short candidate, a long one, and the long one again with a dash and
    in lower case: the technical skills hold the long one once. *)
Lemma categorizer_files_long_candidates_witness :
  let reqs := [u "Java dev"; u "Senior Java developer";
               u "- senior Java developer"] in
  In (u "Senior Java developer")
     (list_item (categorize_candidates ascii_runtime reqs) "technical_skills")
  /\ NoDup (list_item (categorize_candidates ascii_runtime reqs)
                      "technical_skills")
  /\ In "technical_skills"%string
        (dict_keys (categorize_candidates ascii_runtime reqs)).
Proof.
  intros reqs.
  destruct (@categorizer_files_long_candidates ascii_runtime reqs
              "technical_skills" _ eq_refl) as [Hin [_ [Hnd Hkey]]].
  split; [|split].
  - apply (Hin (u "- senior Java developer")).
    + simpl. auto.
    + repeat split; vm_compute; try lia; discriminate.
  - exact Hnd.
  - apply Hkey. vm_compute. discriminate.
Defined.

(** C5 fails as stated: [Java dev] contains the keyword [java] and is not
    filed under the technical skills, being shorter than 10 characters. *)
Lemma short_candidate_is_not_filed :
  ~ exists U, files_every_match U [u "Java dev"].
Proof.
  intros [U H].
  specialize (H "technical_skills"%string _ (u "Java dev") eq_refl
                (or_introl eq_refl)).
  assert (E : any_in [u "python"; u "java"; u "javascript"; u "sql";
                      u "aws"; u "docker"] (lower U (u "Java dev")) = true)
    by (vm_compute; reflexivity).
  specialize (H E). vm_compute in H. exact H.
Qed.

(** C6, as amended. The keys of the categorizer's output are among the six
    categories of [self.categories], which are six of the eight specified
    tags, and each of the six is produced by some candidates. *)
Theorem category_tags_are_the_six (U : Runtime) :
  dict_keys categories =
    [ "experience"; "education"; "technical_skills"; "soft_skills"; "tools";
      "methodologies" ]%string
  /\ incl (dict_keys categories) specified_tags
  /\ (forall reqs key,
        In key (dict_keys (categorize_candidates U reqs)) ->
        In key (dict_keys categories))
  /\ (forall text key,
        In key (dict_keys (_categorize_requirements U text)) ->
        In key (dict_keys categories))
  /\ (forall key,
        In key (dict_keys categories) ->
        exists reqs, In key (dict_keys (categorize_candidates U reqs))).
Proof.
  split; [reflexivity|].
  split; [intros k Hk; simpl in *; tauto|].
  split; [apply categorize_candidates_keys|].
  split; [intros text key; apply categorize_candidates_keys|].
  intros key Hin. exists one_per_category.
  replace (dict_keys (categorize_candidates U one_per_category))
    with (dict_keys categories) by (vm_compute; reflexivity).
  exact Hin.
Qed.

(** C6 fails as stated: no candidates make the categorizer produce the tag
    [languages] or the tag [industries]. *)
Lemma languages_and_industries_never_produced :
  In "languages"%string specified_tags
  /\ In "industries"%string specified_tags
  /\ (~ exists U reqs,
        In "languages"%string (dict_keys (categorize_candidates U reqs)))
  /\ (~ exists U reqs,
        In "industries"%string (dict_keys (categorize_candidates U reqs))).
Proof.
  split; [simpl; tauto|]. split; [simpl; tauto|].
  split; intros [U [reqs H]]; apply categorize_candidates_keys in H;
    simpl in H; intuition discriminate.
Qed.

(** ** The end-to-end scenario *)

(** What the list detector returns for the three bullet lines: the digit of
    [5+] goes with the marker, since the marker class holds the digits. *)
Lemma three_bullets_individual (U : Runtime) :
  _extract_individual_requirements U three_bullets =
    [u "+ years of experience"; u "AWS knowledge required";
     u "We value teamwork"].
Proof. vm_compute. reflexivity. Qed.

(** C1, as amended. The three bullet lines yield three list requirements,
    one per line and in order: the second is [AWS knowledge required] and
    the third is [We value teamwork], which contains the indicator [team].
    The candidate of the first line is filed under experience and the
    second line under technical skills. *)
Theorem three_bullets_scenario (U : Runtime) :
  exists first,
    _extract_individual_requirements U three_bullets =
      [first; u "AWS knowledge required"; u "We value teamwork"]
    /\ contains (u "team") (lower U (u "We value teamwork")) = true
    /\ In first
          (list_item (_categorize_requirements U three_bullets) "experience")
    /\ In (u "AWS knowledge required")
          (list_item (_categorize_requirements U three_bullets)
                     "technical_skills").
Proof.
  exists (u "+ years of experience").
  assert (E := three_bullets_individual U).
  split; [exact E|]. split; [vm_compute; reflexivity|].
  unfold _categorize_requirements. rewrite E.
  split.
  - change (u "+ years of experience")
      with (capitalize U (marker_stripped U (u "+ years of experience"))) at 1.
    apply categorize_candidates_complete with
      (kws := [u "years"; u "experience"; u "senior"; u "junior"; u "entry"]).
    + reflexivity.
    + simpl. auto.
    + repeat split; vm_compute; try lia; discriminate.
  - change (u "AWS knowledge required")
      with (capitalize U (marker_stripped U (u "AWS knowledge required"))) at 1.
    apply categorize_candidates_complete with
      (kws := [u "python"; u "java"; u "javascript"; u "sql"; u "aws";
               u "docker"]).
    + reflexivity.
    + simpl. auto.
    + repeat split; vm_compute; try lia; discriminate.
Qed.

(** C1 fails as stated: [We value teamwork] is among the list requirements
    of the three bullet lines. *)
Lemma third_bullet_is_extracted : ~ exists U, scenario_as_stated U.
Proof.
  intros [U [H _]].
  destruct (H (u "We value teamwork")) as [H1 _].
  rewrite three_bullets_individual in H1. destruct H1 as [D|D]; [simpl; auto | |]; discriminate D.
Qed.

(** ** Further properties of the pipeline

    *** Whitespace *)

Lemma lstrip_split U s :
  exists pre, s = pre ++ lstrip U s /\ Forall (fun c => isspace U c = true) pre.
Proof.
  induction s as [|c s [pre [E F]]]; simpl.
  - exists []. auto.
  - destruct (isspace U c) eqn:Ec.
    + exists (c :: pre). split; [simpl; congruence | constructor; auto].
    + exists []. auto.
Qed.

Lemma lstrip_first U s : first_is (isspace U) (lstrip U s) = false.
Proof.
  induction s as [|c s IH]; simpl; auto.
  destruct (isspace U c) eqn:Ec; simpl; auto.
Qed.

Lemma lstrip_In U s x : In x (lstrip U s) -> In x s.
Proof.
  destruct (lstrip_split U s) as [pre [E _]]. intros H.
  rewrite E. apply in_or_app. now right.
Qed.

Lemma lstrip_length U s : (length (lstrip U s) <= length s)%nat.
Proof.
  destruct (lstrip_split U s) as [pre [E _]].
  rewrite E at 2. rewrite length_app. lia.
Qed.

Lemma lstrip_blank U s :
  Forall (fun c => isspace U c = true) s -> lstrip U s = [].
Proof.
  induction 1 as [|c s Hc _ IH]; simpl; auto. now rewrite Hc.
Qed.

Lemma strip_In U s x : In x (strip U s) -> In x s.
Proof.
  unfold strip. intros H. apply in_rev in H. apply lstrip_In in H.
  apply in_rev in H. now apply lstrip_In in H.
Qed.

Lemma strip_length U s : (length (strip U s) <= length s)%nat.
Proof.
  unfold strip. rewrite length_rev.
  etransitivity; [apply lstrip_length|]. rewrite length_rev.
  apply lstrip_length.
Qed.

Lemma strip_blank U s :
  Forall (fun c => isspace U c = true) s -> strip U s = [].
Proof.
  intros H. unfold strip. now rewrite (@lstrip_blank U s H).
Qed.

Lemma first_is_app p (a b : str) :
  a <> [] -> first_is p (a ++ b) = first_is p a.
Proof. destruct a; [congruence | reflexivity]. Qed.

(** [s.strip()] neither begins nor ends with whitespace. *)
Lemma strip_ends U s :
  first_is (isspace U) (strip U s) = false
  /\ first_is (isspace U) (rev (strip U s)) = false.
Proof.
  unfold strip. rewrite rev_involutive. split; [|apply lstrip_first].
  destruct (lstrip_split U (rev (lstrip U s))) as [pre [E _]].
  destruct (lstrip U (rev (lstrip U s))) as [|c w]; [reflexivity|].
  assert (E' : lstrip U s = rev (c :: w) ++ rev pre).
  { rewrite <- rev_app_distr, <- E. now rewrite rev_involutive. }
  pose proof (lstrip_first U s) as F. rewrite E' in F.
  rewrite first_is_app in F; auto.
  intros H. apply (f_equal (@length char)) in H.
  rewrite length_rev in H. discriminate.
Qed.

(** *** Substitution and splitting *)

Lemma rep_rest_length p n st s rest :
  rep p n st s (fun _ r => Some r) = Some rest ->
  (length rest + n <= length s)%nat.
Proof.
  revert n st. induction s as [|c s IH]; intros n st; simpl.
  - destruct n; [|discriminate]. intros [= <-]. simpl. lia.
  - assert (Hstop : match n with
                    | O => Some (c :: s)
                    | S _ => None
                    end = Some rest ->
                    (length rest + n <= S (length s))%nat).
    { destruct n; [|discriminate]. intros [= <-]. simpl. lia. }
    destruct (p c); auto.
    destruct (rep p (Nat.pred n) false s (fun _ r => Some r)) as [r|] eqn:E;
      auto.
    intros [= <-]. apply IH in E. lia.
Qed.

(** Removing a one-character class is a filter. *)
Lemma sub_class p s start :
  sub_go (Cls p) [] start 0 s = filter (fun c => negb (p c)) s.
Proof.
  revert start. induction s as [|c s IH]; intros start; [reflexivity|].
  cbn [sub_go filter]. unfold match_at. cbn [rmatch].
  destruct (p c); cbn [negb].
  - change (length (c :: s)) with (S (length s)).
    replace (S (length s) - length s)%nat with 1%nat by lia. apply IH.
  - now rewrite IH.
Qed.

(** Replacing the runs of a class leaves no character of the class but
    those of the replacement. *)
Lemma sub_rep_chars p repl start skip s :
  Forall (fun c => In c repl \/ p c = false)
         (sub_go (Rep 1 p) repl start skip s).
Proof.
  revert start skip.
  induction s as [|c s IH]; intros start skip; [constructor|].
  cbn [sub_go]. destruct skip as [|n]; auto.
  pose proof (@rep_one_matches str p start (c :: s) (fun _ r => Some r)) as M.
  unfold match_at. cbn [rmatch].
  destruct (rep p 1 start (c :: s) (fun _ r => Some r)) as [rest|] eqn:E.
  - apply rep_rest_length in E.
    destruct (length (c :: s) - length rest)%nat eqn:D; [lia|].
    apply Forall_app. split; auto.
    apply Forall_forall. intros x Hx. now left.
  - constructor; auto. right.
    destruct (p c) eqn:Ep; auto. exfalso.
    assert (H : first_is p (c :: s) = true) by exact Ep.
    apply M in H; [congruence | discriminate].
Qed.

(** *** [_clean_text] *)

(** X1. The cleaned text holds only word characters, whitespace and the
    punctuation [- . , ; : ! ? ( ) • *]; it holds no tab; and it neither
    begins nor ends with whitespace. *)
Theorem clean_text_alphabet (U : Runtime) (text : str) :
  Forall (fun c => allowed_character U c = true) (_clean_text U text)
  /\ ~ In 9%N (_clean_text U text)
  /\ first_is (isspace U) (_clean_text U text) = false
  /\ first_is (isspace U) (rev (_clean_text U text)) = false.
Proof.
  unfold _clean_text. split; [|split; [|apply strip_ends]].
  - apply Forall_forall. intros c Hc. apply strip_In in Hc.
    unfold re_sub, special_character in Hc. rewrite sub_class in Hc.
    apply filter_In in Hc. destruct Hc as [_ Hc].
    now rewrite negb_involutive in Hc.
  - intros Hc. apply strip_In in Hc.
    unfold re_sub at 1, special_character in Hc. rewrite sub_class in Hc.
    apply filter_In in Hc. destruct Hc as [Hc _].
    pose proof (sub_rep_chars (one_of [32; 9]%N) (u " ") true 0 text) as F.
    rewrite Forall_forall in F. apply F in Hc.
    destruct Hc as [[Hc|[]]|Hc]; discriminate.
Qed.

Lemma infix_refl s : infix s s.
Proof. exists [], []. now rewrite app_nil_r. Qed.

Lemma infix_app seg text a b : infix seg text -> infix seg (a ++ text ++ b).
Proof.
  intros [x [y ->]]. exists (a ++ x), (y ++ b).
  now rewrite <- !app_assoc.
Qed.

Lemma infix_cons seg text c : infix seg text -> infix seg (c :: text).
Proof.
  intros H. apply (@infix_app seg text [c] []) in H.
  now rewrite app_nil_r in H.
Qed.

(** The segments of a split are pieces of the text. *)
Lemma split_go_infix r start skip cur s seg :
  skip = 0%nat \/ cur = [] ->
  In seg (split_go r start skip cur s) -> infix seg (rev cur ++ s).
Proof.
  revert start skip cur.
  induction s as [|c s IH]; intros start skip cur Hinv; cbn [split_go].
  - intros [<-|[]]. rewrite app_nil_r. apply infix_refl.
  - assert (Hpush : In seg (split_go r false 0 (c :: cur) s) ->
                    infix seg (rev cur ++ c :: s)).
    { intros H. apply IH in H; auto.
      simpl in H. now rewrite <- app_assoc in H. }
    destruct skip as [|n].
    + destruct (match_at r start (c :: s)) as [rest|]; auto.
      destruct (length (c :: s) - length rest)%nat; auto.
      intros [<-|H].
      * exists [], (c :: s). reflexivity.
      * apply IH in H; auto. simpl in H.
        apply (@infix_app seg s (rev cur ++ [c]) []) in H.
        now rewrite app_nil_r, <- app_assoc in H.
    + destruct Hinv as [Hs | ->]; [discriminate|].
      intros H. apply IH in H; auto. simpl in *. now apply infix_cons.
Qed.

Lemma re_split_infix r text seg : In seg (re_split r text) -> infix seg text.
Proof. intros H. apply split_go_infix in H; auto. Qed.

Lemma strip_infix_self U s : infix (strip U s) s.
Proof.
  destruct (lstrip_split U s) as [pre [E _]].
  destruct (lstrip_split U (rev (lstrip U s))) as [pre' [E' _]].
  exists pre, (rev pre'). unfold strip.
  rewrite <- rev_app_distr, <- E', rev_involutive. exact E.
Qed.

Lemma lstrip_keeps U a w b :
  w <> [] -> first_is (isspace U) w = false ->
  exists a', lstrip U (a ++ w ++ b) = a' ++ w ++ b.
Proof.
  intros Hw Hf. induction a as [|x a [a' IH]]; simpl.
  - exists []. destruct w as [|c w]; [congruence|].
    simpl in *. now rewrite Hf.
  - destruct (isspace U x).
    + exists a'. exact IH.
    + exists (x :: a). reflexivity.
Qed.

(** Trimming a piece of a text gives no more than trimming the text. *)
Lemma strip_infix_length U seg text :
  infix seg text -> (length (strip U seg) <= length (strip U text))%nat.
Proof.
  intros [a0 [b0 ->]].
  destruct (strip U seg) as [|c w] eqn:Es; [simpl; lia|].
  destruct (strip_ends U seg) as [Hf Hl]. rewrite Es in Hf, Hl.
  destruct (strip_infix_self U seg) as [a1 [b1 E]]. rewrite Es in E.
  rewrite E. rewrite <- !app_assoc.
  set (wd := c :: w) in *.
  replace (a0 ++ a1 ++ wd ++ b1 ++ b0)
    with ((a0 ++ a1) ++ wd ++ (b1 ++ b0)) by now rewrite <- !app_assoc.
  destruct (@lstrip_keeps U (a0 ++ a1) wd (b1 ++ b0)) as [a' Ea];
    [discriminate | exact Hf |].
  unfold strip. rewrite Ea, length_rev.
  replace (rev (a' ++ wd ++ b1 ++ b0))
    with (rev (b1 ++ b0) ++ rev wd ++ rev a')
    by (now rewrite !rev_app_distr, <- !app_assoc).
  destruct (@lstrip_keeps U (rev (b1 ++ b0)) (rev wd) (rev a')) as [b' Eb];
    [|exact Hl|].
  { intros H. apply (f_equal (@length char)) in H.
    rewrite length_rev in H. discriminate. }
  rewrite Eb, !length_app, length_rev. lia.
Qed.

Lemma set_iteration_nil U : set_iteration U [] = [].
Proof.
  apply Permutation_nil. apply Permutation_sym.
  apply (set_iteration_perm U []).
Qed.

Lemma flat_map_nil {A B} (f : A -> list B) l :
  (forall x, In x l -> f x = []) -> flat_map f l = [].
Proof.
  induction l as [|x l IH]; simpl; auto.
  intros H. rewrite (H x), IH; auto.
Qed.

Lemma filter_nil {A} (f : A -> bool) l :
  (forall x, In x l -> f x = false) -> filter f l = [].
Proof.
  induction l as [|x l IH]; simpl; auto.
  intros H. rewrite (H x), IH; auto.
Qed.

(** *** Short texts *)

Lemma text_patterns_short (U : Runtime) (text : str) :
  (length (strip U text) < 10)%nat -> _extract_text_patterns U text = [].
Proof.
  intros Hlen. unfold _extract_text_patterns.
  rewrite (@flat_map_nil _ _ _ (re_split (sentence_split U) text)).
  - apply set_iteration_nil.
  - intros seg Hseg. apply re_split_infix in Hseg.
    apply (strip_infix_length U) in Hseg.
    destruct (length (strip U seg) <? 10)%nat eqn:E; auto.
    apply Nat.ltb_ge in E. lia.
Qed.

(** X2. A text of fewer than 10 characters once trimmed yields no pattern
    requirement. *)
Theorem short_text_has_no_pattern_requirement (U : Runtime) (text : str) :
  (length (strip U text) < 10)%nat -> _extract_text_patterns U text = [].
Proof. apply text_patterns_short. Qed.

(** Nine characters with a keyword, between blanks. *)
Lemma short_text_has_no_pattern_requirement_witness :
  _extract_text_patterns ascii_runtime (u "  must code  ") = [].
Proof.
  apply short_text_has_no_pattern_requirement. vm_compute. lia.
Defined.

Lemma summary_short (U : Runtime) (text : str) :
  (length (strip U text) <= 20)%nat ->
  total_sentences (_generate_summary U text) = 0%nat
  /\ requirement_sentences (_generate_summary U text) = 0%nat
  /\ requirement_density (_generate_summary U text) = 0.
Proof.
  intros Hlen. unfold _generate_summary.
  cbn [total_sentences requirement_sentences requirement_density].
  rewrite (@filter_nil _ _ (re_split summary_split text)).
  - repeat split; reflexivity.
  - intros seg Hseg. apply re_split_infix in Hseg.
    apply (strip_infix_length U) in Hseg.
    apply Nat.ltb_ge. lia.
Qed.

(** X3. A text of at most 20 characters once trimmed has no sentence for
    the summary: the sentence counts and the requirement density are 0. *)
Theorem short_text_has_no_sentence (U : Runtime) (text : str) :
  (length (strip U text) <= 20)%nat ->
  total_sentences (_generate_summary U text) = 0%nat
  /\ requirement_sentences (_generate_summary U text) = 0%nat
  /\ requirement_density (_generate_summary U text) = 0.
Proof. apply summary_short. Qed.

(** Twenty characters with a keyword. *)
Lemma short_text_has_no_sentence_witness :
  total_sentences (_generate_summary ascii_runtime (u "Python is required !")) = 0%nat
  /\ requirement_sentences
       (_generate_summary ascii_runtime (u "Python is required !")) = 0%nat
  /\ requirement_density
       (_generate_summary ascii_runtime (u "Python is required !")) = 0.
Proof.
  apply short_text_has_no_sentence. vm_compute. lia.
Defined.

(** *** Pattern requirements as a set *)

(** X4. Whatever the iteration order of the set, the pattern requirements
    have no duplicate, and they are exactly the capitalized, marker-stripped
    forms of the trimmed segments of at least 10 characters that contain a
    requirement keyword and no exclusion term (and are not made of markers
    only). *)
Theorem text_patterns_characterized (U : Runtime) (text : str) :
  NoDup (_extract_text_patterns U text)
  /\ forall r,
       In r (_extract_text_patterns U text) <->
       exists segment,
         In segment (re_split (sentence_split U) text)
         /\ (10 <= length (strip U segment))%nat
         /\ any_in requirement_keywords (lower U (strip U segment)) = true
         /\ any_in skip_indicators (lower U (strip U segment)) = false
         /\ marker_stripped U (strip U segment) <> []
         /\ r = capitalize U (marker_stripped U (strip U segment)).
Proof.
  unfold _extract_text_patterns. split.
  - eapply Permutation_NoDup.
    + apply Permutation_sym, set_iteration_perm.
    + apply NoDup_nodup.
  - intros r. rewrite set_iteration_In, in_flat_map. split.
    + intros [req [Hreq Hr]]. apply in_flat_map in Hreq.
      destruct Hreq as [segment [Hseg Hreq]]. exists segment. split; auto.
      destruct (length (strip U segment) <? 10)%nat eqn:El; [destruct Hreq|].
      apply Nat.ltb_ge in El.
      destruct (any_in requirement_keywords _) eqn:Ek; [|destruct Hreq].
      destruct (any_in skip_indicators _) eqn:Es; [destruct Hreq|].
      destruct Hreq as [<-|[]].
      fold (marker_stripped U (strip U segment)) in Hr.
      destruct (marker_stripped U (strip U segment)) eqn:Em;
        [destruct Hr|].
      destruct Hr as [<-|[]]. repeat split; auto. discriminate.
    + intros [segment [Hseg [Hl [Hk [Hs [Hm ->]]]]]].
      exists (strip U segment). split.
      * apply in_flat_map. exists segment. split; auto.
        apply Nat.ltb_ge in Hl. rewrite Hl, Hk, Hs. simpl. auto.
      * fold (marker_stripped U (strip U segment)).
        destruct (marker_stripped U (strip U segment)); [congruence|].
        simpl. auto.
Qed.

(** *** List requirements, line by line *)

Lemma split_char_go_app sep cur a b :
  split_char_go sep cur (a ++ sep :: b) =
  split_char_go sep cur a ++ split_char_go sep [] b.
Proof.
  revert cur. induction a as [|c a IH]; intros cur; simpl.
  - now rewrite N.eqb_refl.
  - destruct (N.eqb c sep); simpl; now rewrite IH.
Qed.

(** X5. Lines are handled independently and in order: the list
    requirements of two texts joined by a line break are those of the first
    followed by those of the second; and a text yields at most one list
    requirement per line. *)
Theorem individual_requirements_by_line (U : Runtime) (a b : str) :
  _extract_individual_requirements U (a ++ nl :: b) =
    _extract_individual_requirements U a
    ++ _extract_individual_requirements U b
  /\ (length (_extract_individual_requirements U a)
      <= length (split_char nl a))%nat.
Proof.
  unfold _extract_individual_requirements, split_char. split.
  - now rewrite split_char_go_app, flat_map_app.
  - induction (split_char_go nl [] a) as [|line lines IH];
      [simpl; lia|].
    cbn [flat_map]. rewrite length_app. cbn [length]. cbv beta.
    match goal with
    | |- (length ?t + _ <= _)%nat => assert (H : (length t <= 1)%nat)
    end; [|lia].
    destruct (strip U line) as [|c0 l0]; [simpl; lia|].
    destruct (re_match (bullet_point U) line);
      [|destruct (re_match (indented U) line); [|simpl; lia]];
      (destruct (Nat.ltb 3 _); [|simpl; lia]);
      (destruct (any_in requirement_indicators _); [|simpl; lia]);
      try match goal with
          | |- context [match ?x with [] => _ | _ :: _ => _ end] =>
              destruct x
          end; simpl; lia.
Qed.

(** *** Retained entities *)

Lemma truthy_or a b : truthy b = true -> truthy (py_or a b) = true.
Proof. intros H. unfold py_or. now destruct (truthy a) eqn:E. Qed.

Lemma py_gt_true v :
  py_gt v (7 # 10) = Return true ->
  (exists q, v = VNum q /\ 7 # 10 < q) \/ v = VBool true.
Proof.
  destruct v; simpl; try discriminate.
  - destruct b; [auto | discriminate].
  - intros [= H]. left. exists q. split; auto.
    apply Qnot_le_lt. intros Hle. apply Qle_bool_iff in Hle.
    rewrite Hle in H. discriminate.
Qed.

Lemma kept_spec entity e :
  In e (kept entity) ->
  kept entity = [e]
  /\ exists d, entity = VDict d
     /\ ent_confidence e = py_get d "score"
     /\ py_gt (ent_confidence e) (7 # 10) = Return true
     /\ truthy (ent_type e) = true
     /\ truthy (ent_text e) = true.
Proof.
  unfold kept. destruct entity; simpl; try tauto.
  destruct (py_gt (py_or (py_get d "score") (VNum 0)) (7 # 10))
    as [[|]|] eqn:E; simpl; try tauto.
  intros [<-|[]]. split; auto. exists d. simpl.
  repeat split; auto using truthy_or.
  unfold py_or in *. destruct (truthy (py_get d "score")); auto.
  simpl in E. discriminate.
Qed.

Lemma kept_at_most_one entity : (length (kept entity) <= 1)%nat.
Proof.
  destruct (kept entity) as [|e l] eqn:E; simpl; [lia|].
  destruct (@kept_spec entity e) as [H _]; [rewrite E; now left|].
  rewrite E in H. injection H as ->. simpl. lia.
Qed.

(** X6. When the pipeline answers with a list of records, the entities
    returned are at most as many as the records, and each of them comes
    from a dictionary of the answer whose [score] is a number strictly
    above 0.7 (or [True]); its type and its text are never empty or
    [None]. *)
Theorem retained_entities_are_confident
        (pipeline : str -> exc pyval) (text : str) (items : list pyval) :
  pipeline text = Return (VList items) ->
  exists found,
    _extract_entities (Some pipeline) text = Return found
    /\ (length found <= length items)%nat
    /\ forall e, In e found ->
         (exists d, In (VDict d) items
                    /\ ent_confidence e = py_get d "score")
         /\ ((exists q, ent_confidence e = VNum q /\ 7 # 10 < q)
             \/ ent_confidence e = VBool true)
         /\ truthy (ent_type e) = true
         /\ truthy (ent_text e) = true.
Proof.
  intros H. rewrite _extract_entities_eq, H. cbn [py_iter].
  eexists. split; [reflexivity|]. split.
  - clear H. induction items as [|x items IH]; simpl; auto.
    rewrite length_app. pose proof (kept_at_most_one x). lia.
  - intros e He. apply in_flat_map in He. destruct He as [x [Hx He]].
    apply kept_spec in He. destruct He as [_ [d [-> [Hc [Hg [Ht Hx']]]]]].
    split; [eauto|]. split; auto using py_gt_true.
Qed.

(** A record above the threshold, one at the threshold and one without a
    score: only the first is returned. *)
Lemma retained_entities_are_confident_witness :
  _extract_entities
    (Some (fun _ => Return (VList
       [ VDict [("word"%string, VStr (u "Python"));
                ("score"%string, VNum (71 # 100))];
         VDict [("word"%string, VStr (u "Java"));
                ("score"%string, VNum (7 # 10))];
         VDict [("word"%string, VStr (u "SQL"))] ])))
    (u "Python, Java and SQL")
  = Return [ {| ent_text := VStr (u "Python");
                ent_type := VStr (u "UNKNOWN");
                ent_confidence := VNum (71 # 100) |} ].
Proof.
  destruct (@retained_entities_are_confident
              (fun _ => Return (VList
                 [ VDict [("word"%string, VStr (u "Python"));
                          ("score"%string, VNum (71 # 100))];
                   VDict [("word"%string, VStr (u "Java"));
                          ("score"%string, VNum (7 # 10))];
                   VDict [("word"%string, VStr (u "SQL"))] ]))
              (u "Python, Java and SQL") _ eq_refl) as [found [E _]].
  assert (E' := E). vm_compute in E'. injection E' as <-. exact E.
Defined.

(** *** The range of the complexity score *)

Lemma true_div_nonneg a b : 0 <= true_div a b.
Proof.
  unfold true_div, Qdiv. apply Qmult_le_0_compat.
  - change 0 with (inject_Z 0). rewrite <- Zle_Qle. lia.
  - apply Qinv_le_0_compat.
    change 0 with (inject_Z 0). rewrite <- Zle_Qle. lia.
Qed.

(** X7. The complexity score is between 0 and 10 for every text. *)
Theorem complexity_score_in_range (U : Runtime) (text : str) :
  0 <= _calculate_complexity U text <= 10.
Proof.
  unfold _calculate_complexity.
  destruct (is_nil (split_ws U text)); [split; discriminate|].
  split; [|apply Q.le_min_r].
  apply Q.min_glb; [|discriminate].
  assert (H : forall x y, 0 <= x -> 0 <= y -> 0 <= x + y).
  { intros x y Hx Hy. rewrite <- (Qplus_0_r 0). now apply Qplus_le_compat. }
  repeat apply H; apply Qmult_le_0_compat;
    try apply true_div_nonneg; try discriminate.
  destruct (is_nil _); [apply Qle_refl | apply true_div_nonneg].
Qed.

(** *** Blank descriptions and the word count *)

Lemma split_ws_go_nil U cur s :
  split_ws_go U cur s = [] <->
  cur = [] /\ Forall (fun c => isspace U c = true) s.
Proof.
  revert cur. induction s as [|c s IH]; intros cur; simpl.
  - destruct cur; split; auto; try discriminate.
    intros [H _]. discriminate.
  - destruct (isspace U c) eqn:Ec.
    + destruct cur as [|x cur].
      * rewrite IH. split; intros [H F]; split; auto.
        now inversion F.
      * split; [discriminate | intros [H _]; discriminate].
    + rewrite IH. split; [intros [H _]; discriminate|].
      intros [_ F]. inversion F; congruence.
Qed.

Lemma split_ws_go_length U cur s :
  (length (split_ws_go U cur s) <= length cur + length s)%nat.
Proof.
  revert cur. induction s as [|c s IH]; intros cur; simpl.
  - destruct cur; simpl; lia.
  - destruct (isspace U c).
    + destruct cur as [|x cur]; simpl.
      * specialize (IH []). simpl in IH. lia.
      * specialize (IH []). simpl in IH. lia.
    + specialize (IH (c :: cur)). simpl in IH. lia.
Qed.

Lemma sub_go_In r repl start skip s x :
  In x (sub_go r repl start skip s) -> In x repl \/ In x s.
Proof.
  revert start skip. induction s as [|c s IH]; intros start skip;
    cbn [sub_go]; [tauto|].
  assert (Hcopy : In x (c :: sub_go r repl false 0 s) ->
                  In x repl \/ In x (c :: s)).
  { intros [<-|H]; [right; now left|].
    apply IH in H. simpl. tauto. }
  destruct skip as [|n].
  - destruct (match_at r start (c :: s)); auto.
    destruct (length (c :: s) - length s0)%nat; auto.
    intros H. apply in_app_or in H. destruct H as [H|H]; auto.
    apply IH in H. simpl. tauto.
  - intros H. apply IH in H. simpl. tauto.
Qed.

Lemma split_char_go_In sep cur s line x :
  In line (split_char_go sep cur s) -> In x line -> In x cur \/ In x s.
Proof.
  revert cur. induction s as [|c s IH]; intros cur; simpl.
  - intros [<-|[]] H. left. now apply in_rev.
  - destruct (N.eqb c sep).
    + intros [<-|H] Hx.
      * left. now apply in_rev.
      * destruct (IH [] H Hx) as [[]|]; auto.
    + intros H Hx. destruct (IH (c :: cur) H Hx) as [[<-|]|]; auto.
Qed.

Section Blank.
Variable U : Runtime.
Variable text : str.
Hypothesis blank : Forall (fun c => isspace U c = true) text.

Lemma blank_strip : strip U text = [].
Proof. now apply strip_blank. Qed.

Lemma blank_clean_text : _clean_text U text = [].
Proof.
  unfold _clean_text. apply strip_blank. apply Forall_forall.
  intros x Hx. unfold re_sub in Hx.
  apply sub_go_In in Hx. destruct Hx as [[]|Hx].
  apply sub_go_In in Hx. rewrite Forall_forall in blank.
  destruct Hx as [[<-|[]]|Hx]; auto.
Qed.

Lemma blank_individual : _extract_individual_requirements U text = [].
Proof.
  unfold _extract_individual_requirements. apply flat_map_nil.
  intros line Hline. rewrite (@strip_blank U line); auto.
  apply Forall_forall. intros x Hx.
  destruct (@split_char_go_In nl [] text line x Hline Hx) as [[]|H].
  rewrite Forall_forall in blank. auto.
Qed.

Lemma blank_text_patterns : _extract_text_patterns U text = [].
Proof. apply text_patterns_short. rewrite blank_strip. simpl. lia. Qed.

Lemma blank_summary :
  _generate_summary U text =
  {| total_sentences := 0; requirement_sentences := 0;
     requirement_density := 0; estimated_requirements := 0 |}.
Proof.
  assert (Hs : (length (strip U text) <= 20)%nat)
    by (rewrite blank_strip; simpl; lia).
  destruct (summary_short U text Hs) as [H1 [H2 H3]].
  revert H1 H2 H3. unfold _generate_summary.
  cbn [total_sentences requirement_sentences requirement_density].
  rewrite blank_text_patterns, blank_individual.
  intros -> -> ->. reflexivity.
Qed.

End Blank.

(** X8. A non-empty description made of whitespace only is not answered
    with the error indicator: the analysis returns a report with no
    requirement of any kind, no category, a summary of zeros, no word, a
    complexity of 0, and the single advisory "fewer requirements"; the
    entities are those the pipeline finds in the empty string. *)
Theorem blank_description_report
        (U : Runtime) (ner : option (str -> exc pyval)) (text : str) :
  text <> [] ->
  Forall (fun c => isspace U c = true) text ->
  exists entities,
    _extract_entities ner [] = Return entities
    /\ analyze_job_description U ner text =
       Return
         {| requirements :=
              RequirementsResult
                {| text_requirements := [];
                   individual_requirements := [];
                   entity_requirements := entities;
                   categorized_requirements := [];
                   summary :=
                     {| total_sentences := 0; requirement_sentences := 0;
                        requirement_density := 0;
                        estimated_requirements := 0 |} |};
            text_length := length text;
            word_count := 0;
            complexity_score := 0;
            recommendations := [fewer_requirements] |}.
Proof.
  intros Hne Hblank.
  destruct (@extract_requirements_eq U ner text Hne) as [ents [He E]].
  rewrite (@blank_clean_text U text Hblank) in He, E.
  exists ents. split; [exact He|].
  unfold analyze_job_description. rewrite E. cbn [bind].
  unfold _categorize_requirements, _calculate_complexity, split_ws.
  rewrite (@blank_individual U text Hblank),
          (@blank_text_patterns U text Hblank),
          (@blank_summary U text Hblank).
  replace (_extract_text_patterns U []) with (@nil str)
    by (symmetry; apply text_patterns_short; simpl; lia).
  assert (W : split_ws_go U [] text = [])
    by (apply split_ws_go_nil; auto).
  rewrite W. reflexivity.
Qed.

(** Two spaces and a line break. *)
Lemma blank_description_report_witness :
  analyze_job_description ascii_runtime None [32; 32; 10]%N =
  Return
    {| requirements :=
         RequirementsResult
           {| text_requirements := [];
              individual_requirements := [];
              entity_requirements := [];
              categorized_requirements := [];
              summary :=
                {| total_sentences := 0; requirement_sentences := 0;
                   requirement_density := 0;
                   estimated_requirements := 0 |} |};
       text_length := 3;
       word_count := 0;
       complexity_score := 0;
       recommendations := [fewer_requirements] |}.
Proof.
  destruct (@blank_description_report ascii_runtime None [32; 32; 10]%N)
    as [ents [He E]].
  - discriminate.
  - repeat constructor.
  - injection He as <-. exact E.
Defined.

(** X9. The report's [text_length] is the length of the description, its
    [word_count] is at most that length, and it is 0 exactly when the
    description holds nothing but whitespace, in which case the complexity
    score is 0. *)
Theorem report_metrics
        (U : Runtime) (ner : option (str -> exc pyval)) (text : str) :
  exists report,
    analyze_job_description U ner text = Return report
    /\ text_length report = length text
    /\ (word_count report <= text_length report)%nat
    /\ (word_count report = 0%nat <->
        Forall (fun c => isspace U c = true) text)
    /\ (word_count report = 0%nat -> complexity_score report = 0).
Proof.
  unfold analyze_job_description.
  destruct (extract_requirements_returns U ner text) as [result E].
  rewrite E. cbn [bind]. eexists. split; [reflexivity|].
  cbn [text_length word_count complexity_score]. unfold split_ws.
  split; [reflexivity|]. split; [apply (split_ws_go_length U [] text)|].
  split.
  - rewrite length_zero_iff_nil, split_ws_go_nil. tauto.
  - intros H. apply length_zero_iff_nil in H.
    unfold _calculate_complexity, split_ws. now rewrite H.
Qed.

(** *** Recommendations and categories *)

Lemma _generate_recommendations_members (r : Requirements) :
  let cats := categorized_requirements r in
  let recs := _generate_recommendations (RequirementsResult r) in
  (In technical_advice recs <-> populated cats "technical_skills" = true)
  /\ (In experience_advice recs <-> populated cats "experience" = true)
  /\ (In education_advice recs <-> populated cats "education" = true)
  /\ (1 <= length recs <= 4)%nat.
Proof.
  cbv zeta. unfold _generate_recommendations.
  fold (populated (categorized_requirements r) "technical_skills").
  fold (populated (categorized_requirements r) "experience").
  fold (populated (categorized_requirements r) "education").
  destruct (categorized_requirements r) as [|entry cats] eqn:Ec.
  - cbn [is_nil app]. unfold populated. cbn [dict_get].
    destruct (negb _); vm_compute; intuition (try discriminate; try lia).
  - cbn [is_nil].
    destruct (populated _ "technical_skills");
      destruct (populated _ "experience");
      destruct (populated _ "education");
      destruct (negb _); vm_compute; intuition (try discriminate; try lia).
Qed.

Lemma categorized_populated U reqs key kws :
  dict_get categories key = Some kws ->
  populated (categorize_candidates U reqs) key = true <->
  In key (dict_keys (categorize_candidates U reqs)).
Proof.
  intros Hk. rewrite (categorize_candidates_present U reqs _ Hk).
  unfold populated. rewrite categorize_candidates_get, Hk.
  destruct (category_items U kws reqs); simpl; split; intros H;
    try discriminate; try reflexivity; congruence.
Qed.

(** X10. In the report of a non-empty description, the advice on technical
    skills, on experience and on education is given exactly when the
    corresponding category is a key of the report's categorized
    requirements; there are between one and four recommendations. *)
Theorem recommendations_follow_categories
        (U : Runtime) (ner : option (str -> exc pyval)) (text : str) :
  text <> [] ->
  exists r report,
    analyze_job_description U ner text = Return report
    /\ requirements report = RequirementsResult r
    /\ (In technical_advice (recommendations report) <->
        In "technical_skills"%string (dict_keys (categorized_requirements r)))
    /\ (In experience_advice (recommendations report) <->
        In "experience"%string (dict_keys (categorized_requirements r)))
    /\ (In education_advice (recommendations report) <->
        In "education"%string (dict_keys (categorized_requirements r)))
    /\ (1 <= length (recommendations report) <= 4)%nat.
Proof.
  intros Hne.
  destruct (@extract_requirements_eq U ner text Hne) as [ents [_ E]].
  unfold analyze_job_description. rewrite E. cbn [bind].
  eexists. eexists. split; [reflexivity|].
  cbn [requirements recommendations]. split; [reflexivity|].
  match goal with
  | |- context [_generate_recommendations (RequirementsResult ?r)] =>
      destruct (_generate_recommendations_members r) as [T [X [D L]]]
  end.
  cbn [categorized_requirements] in *. unfold _categorize_requirements in *.
  rewrite T, X, D.
  rewrite (@categorized_populated U _ "technical_skills" _ eq_refl).
  rewrite (@categorized_populated U _ "experience" _ eq_refl).
  rewrite (@categorized_populated U _ "education" _ eq_refl).
  tauto.
Qed.

(** A description with a bullet on Python: one category, two
    recommendations. *)
Lemma recommendations_follow_categories_witness :
  exists report,
    analyze_job_description ascii_runtime None (u "- Python is required")
      = Return report
    /\ In technical_advice (recommendations report)
    /\ ~ In education_advice (recommendations report).
Proof.
  destruct (@recommendations_follow_categories ascii_runtime None
              (u "- Python is required"))
    as [r [report [E [Er [T [_ [D _]]]]]]]; [discriminate|].
  exists report. split; [exact E|].
  vm_compute in E. injection E as <-. injection Er as <-.
  split.
  - apply T. vm_compute. auto.
  - intros H. apply D in H. vm_compute in H. intuition discriminate.
Defined.

(** *** The summary report of a batch *)

Lemma dict_get_app_new {V} (d : dict V) c (v : V) key :
  dict_get (d ++ [(c, v)]) key =
  match dict_get d key with
  | Some w => Some w
  | None => if String.eqb c key then Some v else None
  end.
Proof.
  induction d as [|[k w] d IH]; simpl; auto.
  destruct (String.eqb k key); auto.
Qed.

Lemma count_category_get counts c items key :
  dict_get (count_category counts (c, items)) key =
  if String.eqb c key
  then Some (count_of counts key + length items)%nat
  else dict_get counts key.
Proof.
  unfold count_category, count_of. rewrite dict_get_update.
  destruct (String.eqb c key) eqn:E.
  - apply String.eqb_eq in E; subst key.
    destruct (dict_get counts c) eqn:G; simpl.
    + now rewrite G.
    + now rewrite dict_get_app_new, G, String.eqb_refl.
  - destruct (dict_get counts c) eqn:G; auto.
    rewrite dict_get_app_new, E. now destruct (dict_get counts key).
Qed.

Lemma filed_absent key (cats : dict (list str)) :
  has_key key cats = false -> filed key cats = 0%nat.
Proof.
  unfold filed. induction cats as [|[c items] cats IH]; simpl; auto.
  destruct (String.eqb c key); simpl; [discriminate | auto].
Qed.

Lemma filed_cons key c items (cats : dict (list str)) :
  filed key ((c, items) :: cats) =
  ((if String.eqb c key then length items else 0) + filed key cats)%nat.
Proof. reflexivity. Qed.

Lemma count_categories_get (cats : dict (list str)) counts key :
  dict_get (fold_left count_category cats counts) key =
  if has_key key cats
  then Some (count_of counts key + filed key cats)%nat
  else dict_get counts key.
Proof.
  revert counts. induction cats as [|[c items] cats IH]; intros counts;
    [reflexivity|].
  cbn [fold_left]. rewrite IH. unfold count_of at 1.
  rewrite count_category_get, filed_cons.
  cbn [has_key existsb fst]. fold (has_key key cats).
  destruct (String.eqb c key) eqn:E; cbn [orb]; cbv beta iota.
  - destruct (has_key key cats) eqn:H.
    + f_equal. lia.
    + rewrite (filed_absent _ _ H). f_equal. lia.
  - reflexivity.
Qed.

Lemma list_sum_cons x l : list_sum (x :: l) = (x + list_sum l)%nat.
Proof. reflexivity. Qed.

Lemma tally_fold results total counts :
  fst (fold_left tally results (total, counts)) =
    (total + list_sum (map estimate_of results))%nat
  /\ forall key,
       dict_get (snd (fold_left tally results (total, counts))) key =
       if existsb (fun r => has_key key (categories_of r)) results
       then Some (count_of counts key
                  + list_sum (map (fun r => filed key (categories_of r))
                                  results))%nat
       else dict_get counts key.
Proof.
  revert total counts.
  induction results as [|r results IH]; intros total counts.
  - simpl. split; [lia | reflexivity].
  - cbn [fold_left map existsb]. rewrite !list_sum_cons.
    assert (E : tally (total, counts) r =
                ((total + estimate_of r)%nat,
                 fold_left count_category (categories_of r) counts)).
    { unfold tally, estimate_of, categories_of.
      destruct (analysis_of r) as [a|]; [|simpl; f_equal; lia].
      destruct (requirements a); [simpl; f_equal; lia | reflexivity]. }
    rewrite E. destruct (IH (total + estimate_of r)%nat
                            (fold_left count_category (categories_of r) counts))
      as [H1 H2].
    split; [rewrite H1; lia|].
    intros key. rewrite H2, list_sum_cons. unfold count_of at 1.
    rewrite count_categories_get.
    destruct (has_key key (categories_of r)) eqn:Hk; cbn [orb];
      cbv beta iota.
    + destruct (existsb _ results) eqn:Hr.
      * f_equal. lia.
      * f_equal.
        assert (Z0 : list_sum (map (fun r0 => filed key (categories_of r0))
                                   results) = 0%nat).
        { clear - Hr. induction results as [|x l IH]; simpl in *; auto.
          apply orb_false_iff in Hr. destruct Hr as [Hx Hl].
          rewrite (filed_absent _ _ Hx), (IH Hl). reflexivity. }
        rewrite Z0. lia.
    + rewrite (filed_absent _ _ Hk). reflexivity.
Qed.

Lemma analyses_count results :
  (length (flat_map (fun r => match analysis_of r with
                              | Some a => [a]
                              | None => []
                              end) results)
   + length (filter is_failure results) = length results)%nat.
Proof.
  induction results as [|r results IH]; simpl; auto.
  unfold is_failure at 1. destruct (analysis_of r); simpl; lia.
Qed.

Lemma generate_summary_report_nonempty
      (round2 : Q -> Q) (results : list BatchResult) :
  results <> [] ->
  exists s,
    generate_summary_report round2 results = Report s
    /\ total_files_processed s = length results
    /\ failed_analyses s = length (filter is_failure results)
    /\ (successful_analyses s + failed_analyses s
        = total_files_processed s)%nat
    /\ 0 <= success_rate s <= 1
    /\ total_requirements_found s = list_sum (map estimate_of results)
    /\ total_text_length s =
       list_sum (map text_length
                     (flat_map (fun r => match analysis_of r with
                                         | Some a => [a]
                                         | None => []
                                         end) results))
    /\ total_word_count s =
       list_sum (map word_count
                     (flat_map (fun r => match analysis_of r with
                                         | Some a => [a]
                                         | None => []
                                         end) results))
    /\ forall key,
         dict_get (category_distribution s) key =
         if existsb (fun r => has_key key (categories_of r)) results
         then Some (list_sum (map (fun r => filed key (categories_of r))
                                  results))
         else None.
Proof.
  intros Hne. unfold generate_summary_report.
  replace (is_nil results) with false
    by (destruct results; [congruence | reflexivity]).
  pose proof (analyses_count results) as C.
  destruct (tally_fold results 0 []) as [T D].
  destruct (fold_left tally results (0%nat, [])) as [total counts] eqn:F.
  eexists. split; [reflexivity|].
  cbn [total_files_processed failed_analyses successful_analyses
       success_rate total_requirements_found total_text_length
       total_word_count category_distribution].
  split; [reflexivity|]. split; [lia|]. split; [lia|]. split.
  - destruct (0 <? length results)%nat eqn:L.
    + apply Nat.ltb_lt in L. apply true_div_bounds; lia.
    + split; discriminate.
  - split.
    + change total with (fst (total, counts)). rewrite <- F. exact T.
    + split; [reflexivity|]. split; [reflexivity|].
      intros key. change counts with (snd (total, counts)).
      rewrite <- F. exact (D key).
Qed.

(** X11. The summary report of a batch is the error "No results to
    summarize" exactly when there is no result.  Otherwise the files
    processed are all the results, the failed analyses are the results that
    carry an error, successes and failures add up to the total, the success
    rate is between 0 and 1, and the total of requirements found is the sum
    of the estimates of the reports that have a summary. *)
Theorem summary_report_counts (round2 : Q -> Q) (results : list BatchResult) :
  match generate_summary_report round2 results with
  | NoResults error =>
      results = [] /\ error = u "No results to summarize"
  | Report s =>
      results <> []
      /\ total_files_processed s = length results
      /\ failed_analyses s = length (filter is_failure results)
      /\ (successful_analyses s + failed_analyses s
          = total_files_processed s)%nat
      /\ 0 <= success_rate s <= 1
      /\ total_requirements_found s = list_sum (map estimate_of results)
  end.
Proof.
  destruct results as [|r0 rest] eqn:Er; [split; reflexivity|].
  rewrite <- Er.
  destruct (@generate_summary_report_nonempty round2 results)
    as [s [E H]]; [subst; discriminate|].
  rewrite E. split; [subst; discriminate | tauto].
Qed.

(** X12. The category distribution of the summary report has a key exactly
    when some report of the batch has it among its categorized
    requirements, and the count under a key is the number of items the
    reports of the batch file under it, all reports together. *)
Theorem summary_report_distribution
        (round2 : Q -> Q) (results : list BatchResult) (key : string) :
  match generate_summary_report round2 results with
  | NoResults _ => results = []
  | Report s =>
      dict_get (category_distribution s) key =
      if existsb (fun r => has_key key (categories_of r)) results
      then Some (list_sum (map (fun r => filed key (categories_of r))
                               results))
      else None
  end.
Proof.
  destruct results as [|r0 rest] eqn:Er; [reflexivity|].
  rewrite <- Er.
  destruct (@generate_summary_report_nonempty round2 results)
    as [s [E H]]; [subst; discriminate|].
  rewrite E. apply H.
Qed.

(** *** Files and directories *)

Lemma analyze_job_description_returns U ner text :
  exists report, analyze_job_description U ner text = Return report
                 /\ text_length report = length text
                 /\ (word_count report <= text_length report)%nat.
Proof.
  unfold analyze_job_description.
  destruct (extract_requirements_returns U ner text) as [result E].
  rewrite E. cbn [bind]. eexists. split; [reflexivity|].
  split; [reflexivity|]. apply (split_ws_go_length U [] text).
Qed.

Lemma process_file_cases U ner read_file path_name path :
  match read_file path with
  | Return content =>
      exists a,
        analyze_job_description U ner content = Return a
        /\ process_file U ner read_file path_name path =
           FileAnalysis a (path_name path) path (length content)
  | Raise e =>
      process_file U ner read_file path_name path =
      FileFailure (u e) (path_name path) path
  end.
Proof.
  unfold process_file. destruct (read_file path) as [content|e]; cbn [bind].
  - destruct (analyze_job_description_returns U ner content) as [a [E _]].
    exists a. rewrite E. auto.
  - reflexivity.
Qed.


Lemma produced_facts U ner a :
  produced U ner a ->
  (word_count a <= text_length a)%nat
  /\ forall key reqs,
       requirements a = RequirementsResult reqs ->
       In key (dict_keys (categorized_requirements reqs)) ->
       In key (dict_keys categories).
Proof.
  intros [text E]. split.
  - destruct (analyze_job_description_returns U ner text) as [a' [E' [_ L]]].
    congruence.
  - intros key reqs Hr Hk. unfold analyze_job_description in E.
    destruct text as [|c text].
    + simpl in E. injection E as <-. discriminate.
    + destruct (@extract_requirements_eq U ner (c :: text)) as [ents [_ X]];
        [discriminate|].
      rewrite X in E. cbn [bind] in E. injection E as <-.
      cbn [requirements] in Hr. injection Hr as <-.
      cbn [categorized_requirements] in Hk.
      now apply categorize_candidates_keys in Hk.
Qed.

Lemma has_key_In {V} key (d : dict V) :
  has_key key d = true <-> In key (dict_keys d).
Proof.
  unfold has_key, dict_keys. rewrite existsb_exists, in_map_iff.
  split; intros [e [H1 H2]]; exists e.
  - apply String.eqb_eq in H2. auto.
  - split; [tauto|]. apply String.eqb_eq. tauto.
Qed.

Lemma list_sum_le {A} (f g : A -> nat) l :
  (forall x, In x l -> (f x <= g x)%nat) ->
  (list_sum (map f l) <= list_sum (map g l))%nat.
Proof.
  induction l as [|x l IH]; simpl; auto.
  intros H. specialize (H x (or_introl eq_refl)) as Hx.
  assert (list_sum (map f l) <= list_sum (map g l))%nat by auto.
  lia.
Qed.

(** X14. In the summary report of the results of a directory, the failed
    analyses are the files found that could not be read, the total word
    count is at most the total text length, and every key of the category
    distribution is one of the six categories of the extractor. *)
Theorem directory_summary_report
        (U : Runtime) (ner : option (str -> exc pyval))
        (read_file : str -> exc str) (path_name : str -> str)
        (is_directory : str -> bool) (glob : str -> str -> list str)
        (round2 : Q -> Q)
        (directory : str) (extensions : list str)
        (results : list BatchResult) (s : BatchSummary) :
  process_directory U ner read_file path_name is_directory glob
                    directory (Some extensions) = Return results ->
  generate_summary_report round2 results = Report s ->
  failed_analyses s =
    length (filter (unreadable read_file)
                   (flat_map (glob directory) extensions))
  /\ (total_word_count s <= total_text_length s)%nat
  /\ forall key,
       In key (dict_keys (category_distribution s)) ->
       In key (dict_keys categories).
Proof.
  unfold process_directory.
  destruct (is_directory directory); cbn [negb]; [|discriminate].
  intros [= <-] Hs.
  set (files := flat_map (glob directory) extensions) in *.
  assert (Hprod : forall r a,
             In r (map (process_file U ner read_file path_name) files) ->
             analysis_of r = Some a -> produced U ner a).
  { intros r a Hr Ha. apply in_map_iff in Hr.
    destruct Hr as [path [<- _]].
    pose proof (process_file_cases U ner read_file path_name path) as H.
    destruct (read_file path) as [content|e].
    - destruct H as [a' [Ea Er]]. rewrite Er in Ha.
      injection Ha as <-. now exists content.
    - rewrite H in Ha. discriminate. }
  destruct (map (process_file U ner read_file path_name) files)
    as [|r0 rest] eqn:Em; [discriminate|].
  rewrite <- Em in *.
  destruct (@generate_summary_report_nonempty round2
              (map (process_file U ner read_file path_name) files))
    as [s' [E [_ [F [_ [_ [_ [L [W D]]]]]]]]]; [rewrite Em; discriminate|].
  rewrite E in Hs. injection Hs as <-.
  split; [|split].
  - rewrite F. clear. induction files as [|path files IH]; simpl; auto.
    unfold is_failure at 1, unreadable at 1.
    pose proof (process_file_cases U ner read_file path_name path) as H.
    destruct (read_file path) as [content|e].
    + destruct H as [a [_ ->]]. simpl. exact IH.
    + rewrite H. simpl. now rewrite IH.
  - rewrite L, W. apply list_sum_le. intros a Ha.
    apply in_flat_map in Ha. destruct Ha as [r [Hr Ha]].
    destruct (analysis_of r) as [a'|] eqn:Er; [|destruct Ha].
    destruct Ha as [<-|[]].
    now apply (produced_facts (Hprod r a' Hr Er)).
  - intros key Hk. apply has_key_In in Hk.
    assert (G : dict_get (category_distribution s') key <> None).
    { unfold has_key in Hk. apply existsb_exists in Hk.
      destruct Hk as [[k v] [Hin Hk]]. simpl in Hk.
      apply String.eqb_eq in Hk; subst k. intros N.
      apply (in_map fst) in Hin.
      clear - N Hin. induction (category_distribution s') as [|[k w] d IH];
        simpl in *; [tauto|].
      destruct (String.eqb k key) eqn:Ek; [discriminate|].
      destruct Hin as [->|Hin]; [now rewrite String.eqb_refl in Ek | auto]. }
    rewrite D in G.
    destruct (existsb _ _) eqn:X; [|congruence].
    apply existsb_exists in X. destruct X as [r [Hr Hx]].
    apply has_key_In in Hx. unfold categories_of in Hx.
    destruct (analysis_of r) as [a|] eqn:Ea; [|destruct Hx].
    destruct (requirements a) as [e|reqs] eqn:Eq; [destruct Hx|].
    destruct (produced_facts (Hprod r a Hr Ea)) as [_ K].
    now apply (K key reqs).
Qed.

(** The directory [jobs] of the example file system, with [.txt] files. *)
Lemma directory_summary_report_witness :
  exists s,
    generate_summary_report
      (fun q => q)
      (map (process_file ascii_runtime None example_read (fun path => path))
           [u "jobs/a.txt"; u "jobs/b.txt"]) = Report s
    /\ failed_analyses s = 1%nat
    /\ (total_word_count s <= total_text_length s)%nat
    /\ dict_keys (category_distribution s) = ["technical_skills"%string].
Proof.
  destruct (generate_summary_report
              (fun q => q)
              (map (process_file ascii_runtime None example_read
                                 (fun path => path))
                   [u "jobs/a.txt"; u "jobs/b.txt"])) as [e|s] eqn:G;
    [vm_compute in G; discriminate|].
  exists s. split; [reflexivity|].
  destruct (@directory_summary_report
              ascii_runtime None example_read (fun path => path)
              example_is_directory example_glob (fun q => q)
              (u "jobs") [u ".txt"] _ s eq_refl G) as [F [W _]].
  split; [rewrite F; reflexivity|]. split; [exact W|].
  vm_compute in G. injection G as <-. reflexivity.
Defined.

(** *** The command line *)

Lemma word_count_positive U text :
  strip U text <> [] -> (1 <= length (split_ws U text))%nat.
Proof.
  intros Hs. unfold split_ws.
  destruct (split_ws_go U [] text) eqn:W; [|simpl; lia].
  apply split_ws_go_nil in W. destruct W as [_ W].
  now rewrite (@strip_blank U text W) in Hs.
Qed.

Lemma analyze_nonblank U ner text :
  strip U text <> [] ->
  exists a,
    analyze_job_description U ner text = Return a
    /\ (exists r, requirements a = RequirementsResult r)
    /\ (1 <= word_count a)%nat.
Proof.
  intros Hs.
  assert (Hne : text <> []) by (intros ->; now apply Hs).
  destruct (@extract_requirements_eq U ner text Hne) as [ents [_ E]].
  unfold analyze_job_description. rewrite E. cbn [bind].
  eexists. split; [reflexivity|]. cbn [requirements word_count].
  split; [eauto | now apply word_count_positive].
Qed.

(** X15. On a description that is blank once trimmed the command line ends
    with status 1.  Whenever it completes, the description was not blank,
    the extractor was built, and the results printed are the analysis of
    the description by that extractor: it never carries the error indicator
    and counts at least one word.  When no write and no construction
    raises, a description that is not blank always completes; it is for a
    write or the construction raising only that it ends with status 1. *)
Theorem cli_prints_a_real_report
        (U : Runtime) (emit : Message -> exc unit)
        (build_extractor : exc (option (str -> exc pyval)))
        (output : bool) (text : str) :
  (strip U text = [] -> cli_main U emit build_extractor output text = Exit1)
  /\ (forall a,
        cli_main U emit build_extractor output text = Completed a ->
        strip U text <> []
        /\ exists ner,
             build_extractor = Return ner
             /\ analyze_job_description U ner text = Return a
             /\ emit (Results a) = Return tt
             /\ (exists r, requirements a = RequirementsResult r)
             /\ (1 <= word_count a)%nat)
  /\ (strip U text <> [] ->
      forall ner,
        build_extractor = Return ner ->
        exists a,
          analyze_job_description U ner text = Return a
          /\ ((forall m, emit m = Return tt) ->
              cli_main U emit build_extractor output text = Completed a)
          /\ (cli_main U emit build_extractor output text = Exit1 ->
              exists m, emit m <> Return tt)).
Proof.
  unfold cli_main, and_then. split; [|split].
  - intros ->. cbn [is_nil]. now destruct (emit EmptyDescription).
  - intros a. destruct (strip U text) as [|c w] eqn:Es; cbn [is_nil].
    + destruct (emit EmptyDescription); discriminate.
    + assert (Hs : strip U text <> []) by (rewrite Es; discriminate).
      destruct (emit Initializing) as [[]|]; cbn [bind];
        [|destruct (emit (ErrorDuringAnalysis _)); discriminate].
      destruct (emit UsingModel) as [[]|]; cbn [bind];
        [|destruct (emit (ErrorDuringAnalysis _)); discriminate].
      destruct (emit ConfidenceThreshold) as [[]|]; cbn [bind];
        [|destruct (emit (ErrorDuringAnalysis _)); discriminate].
      destruct build_extractor as [ner|]; cbn [bind];
        [|destruct (emit (ErrorDuringAnalysis _)); discriminate].
      destruct (emit Analyzing) as [[]|]; cbn [bind];
        [|destruct (emit (ErrorDuringAnalysis _)); discriminate].
      destruct (analyze_nonblank U ner text Hs) as [a' [Ea [Hr Hw]]].
      rewrite Ea. cbn [bind].
      destruct (emit (Results a')) as [[]|] eqn:Er; cbn [bind];
        [|destruct (emit (ErrorDuringAnalysis _)); discriminate].
      destruct (if output then emit (Saved a') else Return tt) as [[]|];
        cbn [bind]; [|destruct (emit (ErrorDuringAnalysis _)); discriminate].
      destruct (emit Complete) as [[]|]; cbn [bind];
        [|destruct (emit (ErrorDuringAnalysis _)); discriminate].
      intros [= <-]. split; [discriminate|]. exists ner. auto.
  - intros Hs ner ->. cbn [bind].
    destruct (analyze_nonblank U ner text Hs) as [a [Ea _]].
    exists a. split; [exact Ea|].
    destruct (strip U text) as [|c w]; [congruence|]. cbn [is_nil].
    rewrite Ea. cbn [bind]. split.
    + intros Hall. rewrite !Hall. cbn [bind].
      destruct output; cbn [bind]; reflexivity.
    + intros Hexit.
      destruct (emit Initializing) as [[]|] eqn:E1;
        [|exists Initializing; congruence].
      destruct (emit UsingModel) as [[]|] eqn:E2;
        [|exists UsingModel; congruence].
      destruct (emit ConfidenceThreshold) as [[]|] eqn:E3;
        [|exists ConfidenceThreshold; congruence].
      destruct (emit Analyzing) as [[]|] eqn:E4;
        [|exists Analyzing; congruence].
      destruct (emit (Results a)) as [[]|] eqn:E5;
        [|exists (Results a); congruence].
      destruct (emit Complete) as [[]|] eqn:E7;
        [|exists Complete; congruence].
      cbn [bind] in Hexit.
      destruct output.
      * destruct (emit (Saved a)) as [[]|] eqn:E6;
          [|exists (Saved a); congruence].
        cbn [bind] in Hexit. discriminate.
      * cbn [bind] in Hexit. discriminate.
Qed.

(** A console that takes every text and an extractor without pipeline. *)
Lemma cli_prints_a_real_report_witness :
  exists a,
    cli_main ascii_runtime (fun _ => Return tt) (Return None) false
             (u "- Python is required") = Completed a
    /\ (1 <= word_count a)%nat.
Proof.
  destruct (cli_prints_a_real_report
              ascii_runtime (fun _ => Return tt) (Return None) false
              (u "- Python is required")) as [_ [Hc Hn]].
  destruct (Hn ltac:(vm_compute; discriminate) None eq_refl)
    as [a [_ [Hdone _]]].
  exists a. split; [apply Hdone; reflexivity|].
  destruct (Hc a (Hdone (fun _ => eq_refl))) as [_ [ner [_ [_ [_ [_ Hw]]]]]].
  exact Hw.
Defined.

(** *** The origin of a list requirement, on an example *)

(** A numbered line. *)
Lemma list_requirement_origin_witness :
  exists line,
    In line (split_char nl (u "2) sql skills"))
    /\ first_is (marker_class ascii_runtime) line = true
    /\ u "Sql skills" =
       capitalize ascii_runtime
         (strip ascii_runtime
                (re_sub (bullet_point ascii_runtime) [] line)).
Proof.
  apply (@list_requirement_origin ascii_runtime (u "2) sql skills")
                                  (u "Sql skills")).
  vm_compute. auto.
Defined.
